(** * Live Scribe: batching, transcription and periodic summarisation

    A shallow embedding of [scribe.py] (the Streamlit front end) and
    [scribe_cli.py] (the terminal front end): the audio callback, the
    background [processing_thread], [generate_summary], the device
    selection, the per-tick drain and summary check, and the save action. *)

From Stdlib Require Import ZArith NArith Ascii String.
From stdpp Require Import gmap strings list fin_maps.

Local Open Scope Z_scope.

(** ** Python strings

    A Python [str] is a sequence of Unicode code points.  Literals of the
    source that are plain ASCII are written with [lit]. *)

Module PyStr.

Definition char := N.
Definition str := list char.

Fixpoint lit (s : string) : str :=
  match s with
  | EmptyString => []
  | String a s' => N_of_ascii a :: lit s'
  end.

(** [len(x)] as a Python integer. *)
Definition len {A : Type} (l : list A) : Z := Z.of_nat (length l).

(** The characters [str.strip()] removes: those for which [str.isspace]
    holds (TAB..CR, FS..US, space, NEL, NBSP and the Unicode spaces). *)
Definition is_space (c : char) : bool :=
  ((9 <=? c) && (c <=? 13) || (28 <=? c) && (c <=? 32)
   || (c =? 133) || (c =? 160) || (c =? 5760)
   || (8192 <=? c) && (c <=? 8202)
   || (c =? 8232) || (c =? 8233) || (c =? 8239) || (c =? 8287)
   || (c =? 12288))%N.

Fixpoint lstrip (s : str) : str :=
  match s with
  | [] => []
  | c :: s' => if is_space c then lstrip s' else s
  end.

Definition rstrip (s : str) : str := rev (lstrip (rev s)).

(** [s.strip()] *)
Definition strip (s : str) : str := lstrip (rstrip s).

(** [s.startswith(p)] *)
Fixpoint startswith (p s : str) : bool :=
  match p, s with
  | [], _ => true
  | _ :: _, [] => false
  | a :: p', b :: s' => (a =? b)%N && startswith p' s'
  end.

(** [needle in hay] *)
Fixpoint contains (needle hay : str) : bool :=
  startswith needle hay ||
  match hay with
  | [] => false
  | _ :: hay' => contains needle hay'
  end.

(** [s.split(sep)] for a non-empty [sep]: a left-to-right scan for
    non-overlapping occurrences.  [skip] counts the characters of an
    occurrence still to be passed over, [cur] holds the current piece
    reversed. *)
Fixpoint split_go (sep : str) (skip : nat) (cur : str) (s : str) : list str :=
  match s with
  | [] => [rev cur]
  | c :: s' =>
      match skip with
      | S k => split_go sep k cur s'
      | O =>
          if startswith sep s
          then rev cur :: split_go sep (length sep - 1) [] s'
          else split_go sep 0 (c :: cur) s'
      end
  end.

Definition split (sep s : str) : list str := split_go sep 0 [] s.

(** [l[-1]] on a list of strings that [split] returned (never empty). *)
Definition last_piece (l : list str) : str := List.last l [].

(** [sep.join(l)] *)
Fixpoint join (sep : str) (l : list str) : str :=
  match l with
  | [] => []
  | [x] => x
  | x :: l' => x ++ sep ++ join sep l'
  end.

(** [l[i:]] with Python's treatment of a negative or too large [i]. *)
Definition slice_from {A : Type} (l : list A) (i : Z) : list A :=
  if i <? 0 then drop (Z.to_nat (Z.max 0 (len l + i))) l
  else drop (Z.to_nat i) l.

End PyStr.

Import PyStr.

(** ** Configuration, services and state *)

(** The module-level constants.  [scribe.py] and [scribe_cli.py] differ
    only in their values. *)
Record config := {
  SAMPLE_RATE : Z;
  CHUNK_DURATION : Z;
  SUMMARY_INTERVAL : Z
}.

Definition scribe_config : config :=
  {| SAMPLE_RATE := 16000; CHUNK_DURATION := 7; SUMMARY_INTERVAL := 25 |}.

Definition cli_config : config :=
  {| SAMPLE_RATE := 16000; CHUNK_DURATION := 5; SUMMARY_INTERVAL := 15 |}.

Definition OLLAMA_MODEL : str := lit "qwen3:0.6b".
Definition WHISPER_MODEL : str := lit "mlx-community/whisper-small-mlx".

(** What a call into an external service does: it returns a value or
    raises an [Exception] whose [str(e)] is [e]. *)
Inductive outcome (A : Type) : Type :=
| Returns (a : A)
| Raises (e : str).
Arguments Returns {A} a.
Arguments Raises {A} e.

Definition nl : str := [10%N].
Definition dquote : str := [34%N].

(** The f-string of [generate_summary], before and after [{text_block}]. *)
Definition prompt_head : str :=
  join nl
    [ lit "";
      lit "    [INST]";
      lit "    You are a strategic advisor. Analyze this transcript segment.";
      lit "    ";
      lit "    TASK:";
      lit "    1. Detect the Tone.";
      lit "    2. Find 2 hidden implications (what is being avoided or implied?).";
      lit "    3. Formulate 1 sharp follow-up question.";
      lit "";
      lit "    REQUIRED OUTPUT FORMAT:";
      lit "    Mood: [Tone]";
      lit "    - [Implication 1]";
      lit "    - [Implication 2]";
      lit "    - Qn: [Your Strategic Question?]";
      lit "";
      lit "    RULES:";
      lit "    - Keep points under 15 words.";
      lit "    - No intro text.";
      lit "    - The last point MUST start with " ++ dquote ++ lit "Qn:" ++ dquote ++ lit ".";
      lit "";
      lit "    TRANSCRIPT SEGMENT:";
      lit "    " ].

Definition prompt_tail : str := nl ++ lit "    [/INST]" ++ nl ++ lit "    ".

Definition summary_prompt (text_block : str) : str :=
  prompt_head ++ text_block ++ prompt_tail.

(** The warning sign and its variation selector, then the message. *)
Definition llm_error_prefix : str := [9888%N; 65039%N] ++ lit " LLM Error: ".

(** [generate_summary(text_block)]: the value returned, given what
    [ollama.chat] did with the prompt. *)
Definition generate_summary (chat : outcome str) (text_block : str) : str :=
  match chat with
  | Returns content => content
  | Raises e => llm_error_prefix ++ e
  end.

(** [f"**[{timestamp}]** {text}"] *)
Definition format_line (timestamp text : str) : str :=
  lit "**[" ++ timestamp ++ lit "]** " ++ text.

(** [f"\n\n**Time {timestamp}**\n{new_summary}"] *)
Definition summary_entry (timestamp new_summary : str) : str :=
  nl ++ nl ++ lit "**Time " ++ timestamp ++ lit "**" ++ nl ++ new_summary.

(** [line.split("]** ")[-1]], the element of the [clean_text] comprehension. *)
Definition clean_line (line : str) : str :=
  last_piece (split (lit "]** ") line).

(** The files the save action writes. *)
Inductive file (sample : Type) : Type :=
| WavFile (rate : Z) (data : list sample)
| TextFile (content : str).
Arguments WavFile {sample} rate data.
Arguments TextFile {sample} content.

Definition AUDIO_FILE : string := "meeting_audio.wav"%string.
Definition TRANSCRIPT_FILE : string := "meeting_transcript.txt"%string.

(** An entry of [sd.query_devices()]. *)
Record device := {
  name : str;
  max_input_channels : Z;
  index : Z
}.

Definition MARKER : str := lit "BlackHole".

(** ** Device selection *)

(** [d['max_input_channels'] > 0] *)
Definition is_input (d : device) : bool := 0 <? max_input_channels d.

(** [[d for d in device_list if d['max_input_channels'] > 0]] *)
Definition input_devices (device_list : list device) : list device :=
  List.filter is_input device_list.

(** [[d['name'] for d in device_list if d['max_input_channels'] > 0]] *)
Definition input_names (device_list : list device) : list str :=
  map name (input_devices device_list).

(** [for i, x in enumerate(xs): if "BlackHole" in x: default_idx = i; break],
    entered at position [i] with [default_idx] as set before the loop. *)
Fixpoint scan_marker (i : Z) (names : list str) (default_idx : Z) : Z :=
  match names with
  | [] => default_idx
  | n :: rest =>
      if contains MARKER n then i else scan_marker (i + 1) rest default_idx
  end.

(** [scribe.py]: [default_idx = 0] before the loop. *)
Definition scribe_default_idx (names : list str) : Z := scan_marker 0 names 0.

(** [st.selectbox(label, options, index=...)]: the user's pick when there
    is one, otherwise the option at [index]; [None] when there are no
    options. *)
Definition selectbox (options : list str) (idx : Z) (picked : option str)
    : option str :=
  match picked with
  | Some o => Some o
  | None => options !! Z.to_nat idx
  end.

(** [selected_device] of [scribe.py]. *)
Definition scribe_selected_device (device_list : list device)
    (picked : option str) : option str :=
  let names := input_names device_list in
  selectbox names (scribe_default_idx names) picked.

(** [l[i]] with Python's negative indices; [None] stands for [IndexError]. *)
Definition py_index {A : Type} (l : list A) (i : Z) : option A :=
  if i <? 0 then
    (if len l + i <? 0 then None else l !! Z.to_nat (len l + i))
  else l !! Z.to_nat i.

(** How [select_input_device] of [scribe_cli.py] ends. *)
Inductive selection :=
| Exit (code : Z)
| Device (id : Z)
| DefaultInput.

(** What [input(prompt)] does: it returns the line typed, or raises.  The
    inner [try] around it catches [ValueError] and [IndexError] (so also a
    [UnicodeDecodeError]); any other [Exception], such as [EOFError], goes
    to the outer [except Exception]. *)
Inductive answer :=
| Typed (choice : str)
| InputValueError (e : str)
| InputError (e : str).

Section SelectInputDevice.

(** [int(s)] on a string: [None] stands for [ValueError]. *)
Variable py_int : str -> option Z.

(** [select_input_device].  [queried] is what [sd.query_devices()] does and
    [typed] what [input(prompt)] does. *)
Definition select_input_device (queried : outcome (list device))
    (typed : answer) : selection :=
  match queried with
  | Raises _ => Exit 1
  | Returns device_list =>
      let devs := input_devices device_list in
      match devs with
      | [] => Exit 1
      | _ :: _ =>
          let default_idx := scan_marker 0 (map name devs) (-1) in
          match typed with
          | InputError _ => Exit 1
          | InputValueError _ => DefaultInput
          | Typed choice =>
              let dev_idx :=
                match choice with
                | [] =>
                    if negb (default_idx =? -1) then Some default_idx
                    else Some (if negb (default_idx =? -1) then default_idx else 0)
                | _ :: _ => py_int choice
                end in
              match dev_idx with
              | None => DefaultInput
              | Some i =>
                  match py_index devs i with
                  | None => DefaultInput
                  | Some selected_device => Device (index selected_device)
                  end
              end
          end
      end
  end.

End SelectInputDevice.

(** ** The batch tool [summary_tester.py] *)

Definition TESTER_SUMMARY_INTERVAL : Z := 25.

(** [l[i:j]] with Python's clipping of both bounds. *)
Definition slice {A : Type} (l : list A) (i j : Z) : list A :=
  let norm k := if k <? 0 then Z.max 0 (len l + k) else Z.min k (len l) in
  take (Z.to_nat (norm j - norm i)) (drop (Z.to_nat (norm i)) l).

(** [range(0, stop, step)]; [None] stands for the [ValueError] at step 0. *)
Definition range_from_zero (stop step : Z) : option (list Z) :=
  if step =? 0 then None
  else
    let count :=
      if 0 <? step then (stop + step - 1) / step
      else (- stop - step - 1) / (- step) in
    Some (map (fun k => Z.of_nat k * step) (seq 0 (Z.to_nat count))).

(** [[line.split("]** ")[-1].strip() for line in lines if "]** " in line]] *)
Definition tester_clean_lines (lines : list str) : list str :=
  map (fun line => strip (clean_line line))
    (List.filter (contains (lit "]** ")) lines).

(** The [(i, chunk)] pairs the [for] loop of [main] goes through. *)
Definition tester_chunks (interval : Z) (clean_lines : list str)
    : option (list (Z * list str)) :=
  match range_from_zero (len clean_lines) interval with
  | None => None
  | Some starts =>
      Some (map (fun i => (i, slice clean_lines i (i + interval))) starts)
  end.

(** [if text_block.strip():] *)
Definition not_blank (text_block : str) : bool :=
  match strip text_block with
  | [] => false
  | _ :: _ => true
  end.

(** The text blocks [main] hands to [generate_summary], in order, given
    the lines [readlines()] returned. *)
Definition tester_text_blocks (interval : Z) (lines : list str)
    : option (list str) :=
  match tester_chunks interval (tester_clean_lines lines) with
  | None => None
  | Some chunks =>
      Some (List.filter not_blank (map (fun c => join (lit " ") c.2) chunks))
  end.

(** Whether some line of a chunk is not the empty string. *)
Definition has_text (chunk : list str) : bool :=
  existsb (fun line => match line with [] => false | _ :: _ => true end) chunk.

(** A line of a saved transcript file as [readlines()] returns it: the
    formatted entry, with its line feed unless it is the last line. *)
Definition file_line (entry : str * str * bool) : str :=
  let '(timestamp, text, eol) := entry in
  format_line timestamp text ++ (if eol then nl else []).

(** ** The pipeline

    Samples are never inspected by the program, so their type is left
    open.  Console output is not part of the model. *)

Section Pipeline.

Context {sample : Type}.
Variable cfg : config.

(** The session state of the front end ([st.session_state] in
    [scribe.py], the module globals in [scribe_cli.py]).  [stream] is
    [None] while no stream object is stored, [Some true] once one was
    started and [Some false] after it was stopped and closed. *)
Record session := {
  recording : bool;
  transcript_text : list str;
  audio_buffer : list (list sample);
  summary_log : str;
  last_summary_idx : Z;
  stream : option bool
}.

(** Everything the threads share or own: the session, the two queues,
    the local [audio_chunk] of [processing_thread] and the working
    directory. *)
Record world := {
  ui : session;
  audio_q : list (list sample);
  result_q : list (str * list sample);
  audio_chunk : list sample;
  files : gmap string (file sample)
}.

(** Calls into the two external services, in the order they are made. *)
Inductive effect :=
| Transcribe (model : str) (np_audio : list sample)
| OllamaChat (model : str) (prompt : str).

Definition initial_session : session :=
  {| recording := false; transcript_text := []; audio_buffer := [];
     summary_log := []; last_summary_idx := 0; stream := None |}.

Definition initial_world : world :=
  {| ui := initial_session; audio_q := []; result_q := [];
     audio_chunk := []; files := ∅ |}.

Definition set_ui (s : session) (w : world) : world :=
  {| ui := s; audio_q := audio_q w; result_q := result_q w;
     audio_chunk := audio_chunk w; files := files w |}.

Definition set_files (fs : gmap string (file sample)) (w : world) : world :=
  {| ui := ui w; audio_q := audio_q w; result_q := result_q w;
     audio_chunk := audio_chunk w; files := fs |}.

(** *** The driver thread *)

(** [audio_callback]: [audio_q.put(indata.copy())]; [indata] has one
    channel, so the later [flatten()] yields its frames in order. *)
Definition audio_callback (indata : list sample) (w : world) : world :=
  {| ui := ui w; audio_q := audio_q w ++ [indata]; result_q := result_q w;
     audio_chunk := audio_chunk w; files := files w |}.

(** *** The background thread *)

Definition window_size : Z := SAMPLE_RATE cfg * CHUNK_DURATION cfg.

(** The [try] block of [processing_thread] on a complete window: what is
    put on [result_q]. *)
Definition transcribe_window (whisper : outcome str) (now : str)
    (np_audio : list sample) : list (str * list sample) :=
  match whisper with
  | Returns raw =>
      let text := strip raw in
      match text with
      | [] => []
      | _ :: _ => [(format_line now text, np_audio)]
      end
  | Raises _ => []
  end.

(** One turn of [processing_thread].  While the window is short, one pass
    of the inner [while]: sleep when [audio_q] is empty, otherwise take one
    buffer and extend [audio_chunk] with it.  Once the inner loop's
    condition fails, the rest of the outer iteration: the transcription
    call on the window, the [put], and the [audio_chunk = []] that opens
    the next iteration.  [whisper] is what [mlx_whisper.transcribe]
    followed by [result['text']] does if called, [now] the clock's
    [%H:%M:%S]. *)
Definition worker_step (whisper : outcome str) (now : str) (w : world)
    : world * list effect :=
  if len (audio_chunk w) <? window_size then
    match audio_q w with
    | [] => (w, [])
    | data :: q =>
        ({| ui := ui w; audio_q := q; result_q := result_q w;
            audio_chunk := audio_chunk w ++ data; files := files w |}, [])
    end
  else
    let np_audio := audio_chunk w in
    ({| ui := ui w; audio_q := audio_q w;
        result_q := result_q w ++ transcribe_window whisper now np_audio;
        audio_chunk := []; files := files w |},
     [Transcribe WHISPER_MODEL np_audio]).

(** Whether [processing_thread] still runs, or the exception that ended
    it. *)
Inductive thread_status :=
| Alive
| Died (e : str).

(** One turn of [processing_thread] with the temporary file taken into
    account.  [tmp] is what [tempfile.NamedTemporaryFile] and [wav.write]
    do on a complete window; they come before the [try], so an exception
    there is not caught: it leaves the [while True] loop and ends the
    thread, its local [audio_chunk] with it, and a thread that has ended
    takes no further turn.  When they succeed, and while the window is
    short, the turn is [worker_step]: [worker_step], and with it [step]
    and [run], describe the turns in which the temporary file is written
    without error. *)
Definition processing_turn (tmp : outcome unit) (whisper : outcome str)
    (now : str) (st : thread_status) (w : world)
    : thread_status * world * list effect :=
  match st with
  | Died e => (Died e, w, [])
  | Alive =>
      if len (audio_chunk w) <? window_size then
        let '(w', eff) := worker_step whisper now w in (Alive, w', eff)
      else
        match tmp with
        | Raises e =>
            (Died e,
             {| ui := ui w; audio_q := audio_q w; result_q := result_q w;
                audio_chunk := []; files := files w |},
             [])
        | Returns _ =>
            let '(w', eff) := worker_step whisper now w in (Alive, w', eff)
        end
  end.

(** *** The front ends: drain and summary check *)

(** [while not result_q.empty(): text, raw_audio = result_q.get(); ...] *)
Fixpoint drain_results (q : list (str * list sample)) (s : session) : session :=
  match q with
  | [] => s
  | (text, raw_audio) :: q' =>
      drain_results q'
        {| recording := recording s;
           transcript_text := transcript_text s ++ [text];
           audio_buffer := audio_buffer s ++ [raw_audio];
           summary_log := summary_log s;
           last_summary_idx := last_summary_idx s;
           stream := stream s |}
  end.

Definition drain (w : world) : world :=
  {| ui := drain_results (result_q w) (ui w); audio_q := audio_q w;
     result_q := []; audio_chunk := audio_chunk w; files := files w |}.

(** The text handed to [generate_summary] when the check fires. *)
Definition clean_text (s : session) : str :=
  let recent_lines := slice_from (transcript_text s) (last_summary_idx s) in
  join (lit " ") (map clean_line recent_lines).

(** [current_len - last_summary_idx >= SUMMARY_INTERVAL] *)
Definition check_fires (s : session) : bool :=
  SUMMARY_INTERVAL cfg <=? len (transcript_text s) - last_summary_idx s.

(** The summary check.  [chat] is what [ollama.chat] followed by
    [response['message']['content']] does if called, [now] the clock's
    [%H:%M]. *)
Definition summary_check (chat : outcome str) (now : str) (s : session)
    : session * list effect :=
  let current_len := len (transcript_text s) in
  if check_fires s then
    let text := clean_text s in
    let new_summary := generate_summary chat text in
    ({| recording := recording s;
        transcript_text := transcript_text s;
        audio_buffer := audio_buffer s;
        summary_log := summary_log s ++ summary_entry now new_summary;
        last_summary_idx := current_len;
        stream := stream s |},
     [OllamaChat OLLAMA_MODEL (summary_prompt text)])
  else (s, []).

(** *** The controls *)

(** The start/stop button of [scribe.py].  [start] is what looking up the
    device, [sd.InputStream] and [stream.start()] do together. *)
Definition toggle_button (start : outcome unit) (s : session) : session :=
  if negb (recording s) then
    match start with
    | Returns _ =>
        {| recording := true; transcript_text := transcript_text s;
           audio_buffer := audio_buffer s; summary_log := summary_log s;
           last_summary_idx := last_summary_idx s; stream := Some true |}
    | Raises _ =>
        {| recording := false; transcript_text := transcript_text s;
           audio_buffer := audio_buffer s; summary_log := summary_log s;
           last_summary_idx := last_summary_idx s; stream := stream s |}
    end
  else
    {| recording := false; transcript_text := transcript_text s;
       audio_buffer := audio_buffer s; summary_log := summary_log s;
       last_summary_idx := last_summary_idx s;
       stream := match stream s with Some _ => Some false | None => None end |}.

(** [if audio_buffer: wav.write("meeting_audio.wav", SAMPLE_RATE,
    np.concatenate(audio_buffer))], the same in both front ends. *)
Definition save_audio (s : session) (fs : gmap string (file sample))
    : gmap string (file sample) :=
  match audio_buffer s with
  | [] => fs
  | _ :: _ => <[AUDIO_FILE := WavFile (SAMPLE_RATE cfg) (concat (audio_buffer s))]> fs
  end.

(** The save button of [scribe.py]: the transcript file is opened for
    writing whatever the log holds. *)
Definition save_button (w : world) : world :=
  let fs := save_audio (ui w) (files w) in
  set_files (<[TRANSCRIPT_FILE := TextFile (join nl (transcript_text (ui w)))]> fs) w.

(** [save_data] of [scribe_cli.py]: the transcript file is written under
    [if transcript_text:]. *)
Definition save_data (w : world) : world :=
  let fs := save_audio (ui w) (files w) in
  match transcript_text (ui w) with
  | [] => set_files fs w
  | _ :: _ =>
      set_files (<[TRANSCRIPT_FILE := TextFile (join nl (transcript_text (ui w)))]> fs) w
  end.

(** What one run of the [scribe.py] script is given. *)
Record rerun_input := {
  chat : outcome str;
  clock : str;
  toggle_clicked : bool;
  start_stream : outcome unit;
  save_clicked : bool
}.

(** One run of the [scribe.py] script body, top to bottom. *)
Definition scribe_rerun (inp : rerun_input) (w : world) : world * list effect :=
  let w1 := drain w in
  let '(s2, eff) := summary_check (chat inp) (clock inp) (ui w1) in
  let s3 := if toggle_clicked inp then toggle_button (start_stream inp) s2 else s2 in
  let w3 := set_ui s3 w1 in
  let w4 := if save_clicked inp then save_button w3 else w3 in
  (w4, eff).

(** One pass of the [while recording:] loop of [main] in [scribe_cli.py]. *)
Definition cli_iteration (chat : outcome str) (now : str) (w : world)
    : world * list effect :=
  let w1 := drain w in
  let '(s2, eff) := summary_check chat now (ui w1) in
  (set_ui s2 w1, eff).

(** [stream.start(); recording = True] in [main]. *)
Definition cli_start (w : world) : world :=
  set_ui {| recording := true; transcript_text := transcript_text (ui w);
            audio_buffer := audio_buffer (ui w); summary_log := summary_log (ui w);
            last_summary_idx := last_summary_idx (ui w); stream := Some true |} w.

(** [except KeyboardInterrupt: recording = False] *)
Definition cli_interrupt (w : world) : world :=
  set_ui {| recording := false; transcript_text := transcript_text (ui w);
            audio_buffer := audio_buffer (ui w); summary_log := summary_log (ui w);
            last_summary_idx := last_summary_idx (ui w); stream := stream (ui w) |} w.

(** The [finally] of [main]: stop and close the stream, then [save_data]. *)
Definition cli_finally (w : world) : world :=
  save_data
    (set_ui {| recording := recording (ui w); transcript_text := transcript_text (ui w);
               audio_buffer := audio_buffer (ui w); summary_log := summary_log (ui w);
               last_summary_idx := last_summary_idx (ui w);
               stream := match stream (ui w) with Some _ => Some false | None => None end |} w).

(** *** Interleavings *)

(** The atomic steps of the three threads of control. *)
Inductive event :=
| AudioCallback (indata : list sample)
| WorkerStep (whisper : outcome str) (now : str)
| ScribeRerun (inp : rerun_input)
| CliStart
| CliIteration (chat : outcome str) (now : str)
| CliInterrupt
| CliFinally.

Definition step (e : event) (w : world) : world * list effect :=
  match e with
  | AudioCallback indata => (audio_callback indata w, [])
  | WorkerStep whisper now => worker_step whisper now w
  | ScribeRerun inp => scribe_rerun inp w
  | CliStart => (cli_start w, [])
  | CliIteration chat now => cli_iteration chat now w
  | CliInterrupt => (cli_interrupt w, [])
  | CliFinally => (cli_finally w, [])
  end.

(** A schedule run from [w]: the final world and all service calls. *)
Fixpoint run (es : list event) (w : world) : world * list effect :=
  match es with
  | [] => (w, [])
  | e :: es' =>
      let '(w1, eff1) := step e w in
      let '(w2, eff2) := run es' w1 in
      (w2, eff1 ++ eff2)
  end.

(** The front-end ticks among the events. *)
Definition is_tick (e : event) : bool :=
  match e with
  | ScribeRerun _ | CliIteration _ _ => true
  | _ => false
  end.

(** *** Predicates and helpers for the statements below *)

(** The boundary cursor points into the transcript log. *)
Definition boundary_ok (w : world) : Prop :=
  0 <= last_summary_idx (ui w) <= len (transcript_text (ui w)).

(** A service call the pipeline may make: a transcription is always of a
    window that has reached the window size. *)
Definition call_ok (ef : effect) : Prop :=
  match ef with
  | Transcribe _ np_audio => window_size <= len np_audio
  | OllamaChat _ _ => True
  end.

(** The windows transcribed among some service calls, and the buffers the
    driver delivered in a schedule. *)
Fixpoint windows (effs : list effect) : list (list sample) :=
  match effs with
  | [] => []
  | Transcribe _ np_audio :: effs' => np_audio :: windows effs'
  | OllamaChat _ _ :: effs' => windows effs'
  end.

Fixpoint delivered (es : list event) : list (list sample) :=
  match es with
  | [] => []
  | AudioCallback indata :: es' => indata :: delivered es'
  | _ :: es' => delivered es'
  end.

(** The samples still on their way to a transcription call. *)
Definition pending (w : world) : list sample :=
  audio_chunk w ++ concat (audio_q w).

(** [line] was formatted from the non-empty stripped text of some
    transcription that returned in the schedule [es]. *)
Definition from_transcription (es : list event) (line : str) : Prop :=
  exists raw now,
    In (WorkerStep (Returns raw) now) es
    /\ strip raw <> []
    /\ line = format_line now (strip raw).

(** All lines queued or logged come from transcriptions of [es]. *)
Definition lines_ok (es : list event) (w : world) : Prop :=
  Forall (from_transcription es) (map fst (result_q w))
  /\ Forall (from_transcription es) (transcript_text (ui w)).

(** [ev] with the summarisation service made to raise [e0]. *)
Definition fail_chat (e0 : str) (ev : event) : event :=
  match ev with
  | ScribeRerun inp =>
      ScribeRerun {| chat := Raises e0; clock := clock inp;
                     toggle_clicked := toggle_clicked inp;
                     start_stream := start_stream inp;
                     save_clicked := save_clicked inp |}
  | CliIteration _ now => CliIteration (Raises e0) now
  | _ => ev
  end.

(** A world whose background thread holds [chunk] and nothing else. *)
Definition world_with_chunk (chunk : list sample) : world :=
  {| ui := initial_session; audio_q := []; result_q := [];
     audio_chunk := chunk; files := ∅ |}.

(** A session holding the transcript [lines], nothing summarised yet. *)
Definition session_with_lines (lines : list str) : session :=
  {| recording := true; transcript_text := lines; audio_buffer := [];
     summary_log := []; last_summary_idx := 0; stream := Some true |}.

(** Two sessions, or worlds, that differ at most in the summary log. *)
Definition same_but_summary (s1 s2 : session) : Prop :=
  recording s1 = recording s2
  /\ transcript_text s1 = transcript_text s2
  /\ audio_buffer s1 = audio_buffer s2
  /\ last_summary_idx s1 = last_summary_idx s2
  /\ stream s1 = stream s2.

Definition same_world (w1 w2 : world) : Prop :=
  same_but_summary (ui w1) (ui w2)
  /\ audio_q w1 = audio_q w2
  /\ result_q w1 = result_q w2
  /\ audio_chunk w1 = audio_chunk w2
  /\ files w1 = files w2.

(** The turns of the background thread, and the events that occur when
    the front end is [scribe.py]. *)
Definition is_worker (e : event) : bool :=
  match e with
  | WorkerStep _ _ => true
  | _ => false
  end.

Definition is_scribe_event (e : event) : bool :=
  match e with
  | AudioCallback _ | WorkerStep _ _ | ScribeRerun _ => true
  | _ => false
  end.


(** [ev] with the transcription service made to raise [e0]. *)
Definition fail_whisper (e0 : str) (ev : event) : event :=
  match ev with
  | WorkerStep _ now => WorkerStep (Raises e0) now
  | _ => ev
  end.

(** ** Properties of the pipeline *)

Lemma len_nonneg {A : Type} (l : list A) : 0 <= len l.
Proof. unfold len. lia. Qed.

Lemma len_app {A : Type} (l1 l2 : list A) : len (l1 ++ l2) = len l1 + len l2.
Proof. unfold len. rewrite length_app. lia. Qed.

(** *** Drain *)

Lemma drain_results_transcript q s :
  transcript_text (drain_results q s) = transcript_text s ++ map fst q.
Proof.
  revert s. induction q as [|[text raw] q IH]; intros s; simpl.
  - by rewrite app_nil_r.
  - rewrite IH. simpl. by rewrite <- app_assoc.
Qed.

Lemma drain_results_audio q s :
  audio_buffer (drain_results q s) = audio_buffer s ++ map snd q.
Proof.
  revert s. induction q as [|[text raw] q IH]; intros s; simpl.
  - by rewrite app_nil_r.
  - rewrite IH. simpl. by rewrite <- app_assoc.
Qed.

Lemma drain_results_frame q s :
  recording (drain_results q s) = recording s
  /\ summary_log (drain_results q s) = summary_log s
  /\ last_summary_idx (drain_results q s) = last_summary_idx s
  /\ stream (drain_results q s) = stream s.
Proof.
  revert s. induction q as [|[text raw] q IH]; intros s; simpl; [done|].
  destruct (IH {| recording := recording s;
                  transcript_text := transcript_text s ++ [text];
                  audio_buffer := audio_buffer s ++ [raw];
                  summary_log := summary_log s;
                  last_summary_idx := last_summary_idx s;
                  stream := stream s |}) as (-> & -> & -> & ->).
  done.
Qed.

Lemma drain_idx w : last_summary_idx (ui (drain w)) = last_summary_idx (ui w).
Proof. simpl. apply drain_results_frame. Qed.

Lemma drain_transcript w :
  transcript_text (ui (drain w)) = transcript_text (ui w) ++ map fst (result_q w).
Proof. simpl. apply drain_results_transcript. Qed.

Arguments drain : simpl never.

(** *** Summary check *)

Lemma summary_check_fired chat now s :
  check_fires s = true ->
  summary_check chat now s =
    ({| recording := recording s;
        transcript_text := transcript_text s;
        audio_buffer := audio_buffer s;
        summary_log := summary_log s ++ summary_entry now (generate_summary chat (clean_text s));
        last_summary_idx := len (transcript_text s);
        stream := stream s |},
     [OllamaChat OLLAMA_MODEL (summary_prompt (clean_text s))]).
Proof. intros H. unfold summary_check. by rewrite H. Qed.

Lemma summary_check_idle chat now s :
  check_fires s = false -> summary_check chat now s = (s, []).
Proof. intros H. unfold summary_check. by rewrite H. Qed.

Lemma summary_check_transcript chat now s :
  transcript_text (summary_check chat now s).1 = transcript_text s.
Proof. unfold summary_check. by destruct (check_fires s). Qed.

Lemma summary_check_idx chat now s :
  last_summary_idx (summary_check chat now s).1 =
    if check_fires s then len (transcript_text s) else last_summary_idx s.
Proof. unfold summary_check. by destruct (check_fires s). Qed.

Lemma toggle_button_frame start s :
  transcript_text (toggle_button start s) = transcript_text s
  /\ audio_buffer (toggle_button start s) = audio_buffer s
  /\ summary_log (toggle_button start s) = summary_log s
  /\ last_summary_idx (toggle_button start s) = last_summary_idx s.
Proof. unfold toggle_button. by destruct (negb (recording s)), start. Qed.

Lemma scribe_rerun_ui inp w :
  ui (scribe_rerun inp w).1 =
    let s2 := (summary_check (chat inp) (clock inp) (ui (drain w))).1 in
    if toggle_clicked inp then toggle_button (start_stream inp) s2 else s2.
Proof.
  unfold scribe_rerun.
  destruct (summary_check (chat inp) (clock inp) (ui (drain w))) as [s2 eff].
  by destruct (save_clicked inp).
Qed.

Lemma cli_iteration_ui c now w :
  ui (cli_iteration c now w).1 = (summary_check c now (ui (drain w))).1.
Proof.
  unfold cli_iteration.
  by destruct (summary_check c now (ui (drain w))) as [s2 eff].
Qed.

Lemma scribe_rerun_world inp w :
  (scribe_rerun inp w).1 =
    let s2 := (summary_check (chat inp) (clock inp) (ui (drain w))).1 in
    let s3 := if toggle_clicked inp then toggle_button (start_stream inp) s2 else s2 in
    let w3 := set_ui s3 (drain w) in
    if save_clicked inp then save_button w3 else w3.
Proof.
  unfold scribe_rerun.
  by destruct (summary_check (chat inp) (clock inp) (ui (drain w))) as [s2 eff].
Qed.

Lemma cli_iteration_world c now w :
  (cli_iteration c now w).1 = set_ui (summary_check c now (ui (drain w))).1 (drain w).
Proof.
  unfold cli_iteration.
  by destruct (summary_check c now (ui (drain w))) as [s2 eff].
Qed.

(** *** The boundary cursor *)

(** What a step does to the log and the cursor. *)
Lemma step_log_and_cursor e w :
  transcript_text (ui (step e w).1) =
    (if is_tick e then transcript_text (ui (drain w)) else transcript_text (ui w))
  /\ last_summary_idx (ui (step e w).1) =
    (if is_tick e && check_fires (ui (drain w))
     then len (transcript_text (ui (drain w)))
     else last_summary_idx (ui w)).
Proof.
  destruct e as [indata|whisper now|inp| |c now| | ]; simpl.
  - done.
  - unfold worker_step.
    destruct (len (audio_chunk w) <? window_size); [destruct (audio_q w)|]; done.
  - rewrite scribe_rerun_ui. cbv zeta.
    pose proof (summary_check_transcript (chat inp) (clock inp) (ui (drain w))) as Ht.
    pose proof (summary_check_idx (chat inp) (clock inp) (ui (drain w))) as Hi.
    rewrite drain_idx in Hi.
    destruct (toggle_clicked inp).
    + destruct (toggle_button_frame (start_stream inp)
                  (summary_check (chat inp) (clock inp) (ui (drain w))).1)
        as (-> & _ & _ & ->).
      by rewrite Ht, Hi.
    + by rewrite Ht, Hi.
  - done.
  - rewrite cli_iteration_ui.
    pose proof (summary_check_idx c now (ui (drain w))) as Hi.
    rewrite drain_idx in Hi.
    by rewrite summary_check_transcript, Hi.
  - done.
  - unfold cli_finally, save_data. simpl.
    by destruct (transcript_text (ui w)).
Qed.

Lemma step_boundary_ok e w : boundary_ok w -> boundary_ok (step e w).1.
Proof.
  unfold boundary_ok. intros [H0 H1].
  destruct (step_log_and_cursor e w) as [-> ->].
  pose proof (drain_transcript w) as Hd.
  pose proof (len_nonneg (map fst (result_q w))).
  destruct (is_tick e); simpl andb; [|lia].
  destruct (check_fires _); rewrite Hd, len_app; lia.
Qed.

Lemma run_boundary_ok es w : boundary_ok w -> boundary_ok (run es w).1.
Proof.
  revert w. induction es as [|e es IH]; intros w H; simpl; [done|].
  pose proof (step_boundary_ok e w H) as H1.
  destruct (step e w) as [w1 eff1]. simpl in H1.
  specialize (IH w1 H1). by destruct (run es w1).
Qed.

Lemma initial_boundary_ok : boundary_ok initial_world.
Proof. unfold boundary_ok. simpl. unfold len. simpl. lia. Qed.

(** *** The background thread *)

Lemma worker_step_full whisper now w :
  window_size <= len (audio_chunk w) ->
  worker_step whisper now w =
    ({| ui := ui w; audio_q := audio_q w;
        result_q := result_q w ++ transcribe_window whisper now (audio_chunk w);
        audio_chunk := []; files := files w |},
     [Transcribe WHISPER_MODEL (audio_chunk w)]).
Proof.
  intros H. unfold worker_step.
  destruct (Z.ltb_spec (len (audio_chunk w)) window_size); [lia|done].
Qed.

Lemma worker_step_short whisper now w :
  len (audio_chunk w) < window_size ->
  worker_step whisper now w =
    match audio_q w with
    | [] => (w, [])
    | data :: q =>
        ({| ui := ui w; audio_q := q; result_q := result_q w;
            audio_chunk := audio_chunk w ++ data; files := files w |}, [])
    end.
Proof.
  intros H. unfold worker_step.
  destruct (Z.ltb_spec (len (audio_chunk w)) window_size); [done|lia].
Qed.

Lemma summary_check_calls_ok c now s : Forall call_ok (summary_check c now s).2.
Proof.
  unfold summary_check. destruct (check_fires s); simpl; [|constructor].
  by repeat constructor.
Qed.

Lemma step_calls_ok e w : Forall call_ok (step e w).2.
Proof.
  destruct e as [indata|whisper now|inp| |c now| | ]; simpl; try constructor.
  - unfold worker_step.
    destruct (Z.ltb_spec (len (audio_chunk w)) window_size).
    + destruct (audio_q w); constructor.
    + by repeat constructor.
  - unfold scribe_rerun.
    pose proof (summary_check_calls_ok (chat inp) (clock inp) (ui (drain w))) as H.
    by destruct (summary_check (chat inp) (clock inp) (ui (drain w))).
  - unfold cli_iteration.
    pose proof (summary_check_calls_ok c now (ui (drain w))) as H.
    by destruct (summary_check c now (ui (drain w))).
Qed.

Lemma run_calls_ok es w : Forall call_ok (run es w).2.
Proof.
  revert w. induction es as [|e es IH]; intros w; simpl; [constructor|].
  pose proof (step_calls_ok e w) as H1.
  destruct (step e w) as [w1 eff1]. specialize (IH w1).
  destruct (run es w1) as [w2 eff2]. simpl in *.
  by apply Forall_app.
Qed.

Lemma windows_app effs1 effs2 : windows (effs1 ++ effs2) = windows effs1 ++ windows effs2.
Proof.
  induction effs1 as [|[m a|m p] effs1 IH]; simpl; [done| |done].
  by rewrite IH.
Qed.

Lemma summary_check_windows c now s : windows (summary_check c now s).2 = [].
Proof. unfold summary_check. by destruct (check_fires s). Qed.

Lemma step_conserves e w :
  concat (windows (step e w).2) ++ pending (step e w).1 =
    pending w ++ concat (delivered [e]).
Proof.
  unfold pending.
  destruct e as [indata|whisper now|inp| |c now| | ]; simpl;
    rewrite ?app_nil_r; try done.
  - rewrite concat_app. simpl. by rewrite app_nil_r, app_assoc.
  - unfold worker_step.
    destruct (len (audio_chunk w) <? window_size).
    + destruct (audio_q w) as [|data q] eqn:E; simpl.
      * by rewrite E.
      * by rewrite app_assoc.
    + simpl. by rewrite app_nil_r.
  - unfold scribe_rerun.
    pose proof (summary_check_windows (chat inp) (clock inp) (ui (drain w))) as H.
    destruct (summary_check (chat inp) (clock inp) (ui (drain w))) as [s2 eff].
    destruct (save_clicked inp); simpl in *; by rewrite H.
  - unfold cli_iteration.
    pose proof (summary_check_windows c now (ui (drain w))) as H.
    destruct (summary_check c now (ui (drain w))) as [s2 eff].
    simpl in *. by rewrite H.
  - unfold cli_finally, save_data. simpl. by destruct (transcript_text (ui w)).
Qed.

Lemma delivered_cons e es : delivered (e :: es) = delivered [e] ++ delivered es.
Proof. by destruct e. Qed.

(** Every delivered sample ends up in exactly one window or is still
    pending: windows neither overlap nor skip samples. *)
Lemma run_conserves es w :
  concat (windows (run es w).2) ++ pending (run es w).1 =
    pending w ++ concat (delivered es).
Proof.
  revert w. induction es as [|e es IH]; intros w.
  - simpl. by rewrite app_nil_r.
  - rewrite delivered_cons, concat_app. simpl run.
    pose proof (step_conserves e w) as H1.
    destruct (step e w) as [w1 eff1]. specialize (IH w1).
    destruct (run es w1) as [w2 eff2]. simpl in *.
    rewrite windows_app, concat_app, <- app_assoc, IH, app_assoc, H1.
    by rewrite <- app_assoc.
Qed.

(** *** Whitespace stripping *)

Lemma lstrip_nil s : lstrip s = [] <-> forallb is_space s = true.
Proof.
  induction s as [|c s IH]; simpl; [done|].
  destruct (is_space c); simpl; [done|]. split; discriminate.
Qed.

Lemma lstrip_head s c r : lstrip s = c :: r -> is_space c = false.
Proof.
  induction s as [|d s IH]; simpl; [discriminate|].
  destruct (is_space d) eqn:E; [done|]. intros [= <- _]. done.
Qed.

Lemma forallb_rev {A : Type} (f : A -> bool) (l : list A) :
  forallb f (rev l) = true <-> forallb f l = true.
Proof.
  rewrite !forallb_forall. split; intros H x Hx; apply H.
  - by apply in_rev in Hx.
  - by apply in_rev.
Qed.

(** [s.strip()] is empty exactly when [s] is empty or all whitespace. *)
Lemma strip_nil s : strip s = [] <-> forallb is_space s = true.
Proof.
  unfold strip, rstrip. rewrite lstrip_nil, forallb_rev. split.
  - intros H. destruct (lstrip (rev s)) as [|c r] eqn:E.
    + apply lstrip_nil in E. by apply forallb_rev.
    + apply lstrip_head in E. simpl in H. rewrite E in H. discriminate.
  - intros H. apply forallb_rev, lstrip_nil in H. by rewrite H.
Qed.

Lemma transcribe_window_returns raw now (np_audio : list sample) :
  transcribe_window (Returns raw) now np_audio =
    if forallb is_space raw then []
    else [(format_line now (strip raw), np_audio)].
Proof.
  unfold transcribe_window.
  destruct (forallb is_space raw) eqn:E.
  - apply strip_nil in E. by rewrite E.
  - destruct (strip raw) as [|c r] eqn:Es; [|done].
    apply strip_nil in Es. congruence.
Qed.

(** *** Where transcript lines come from *)

Lemma transcribe_window_provenance es whisper now (np_audio : list sample) :
  In (WorkerStep whisper now) es ->
  Forall (from_transcription es) (map fst (transcribe_window whisper now np_audio)).
Proof.
  intros Hin. destruct whisper as [raw|e]; simpl; [|constructor].
  destruct (strip raw) as [|c r] eqn:E; simpl; constructor; [|constructor].
  exists raw, now. rewrite E. done.
Qed.

Lemma step_result_q e w :
  result_q (step e w).1 =
    match e with
    | WorkerStep whisper now =>
        if len (audio_chunk w) <? window_size then result_q w
        else result_q w ++ transcribe_window whisper now (audio_chunk w)
    | ScribeRerun _ | CliIteration _ _ => []
    | _ => result_q w
    end.
Proof.
  destruct e as [indata|whisper now|inp| |c now| | ]; simpl; try done.
  - unfold worker_step.
    destruct (len (audio_chunk w) <? window_size); [|done].
    by destruct (audio_q w).
  - unfold scribe_rerun.
    destruct (summary_check (chat inp) (clock inp) (ui (drain w))) as [s2 eff].
    by destruct (save_clicked inp).
  - unfold cli_iteration.
    by destruct (summary_check c now (ui (drain w))) as [s2 eff].
  - unfold cli_finally, save_data. simpl. by destruct (transcript_text (ui w)).
Qed.

Lemma step_lines_ok es e w : In e es -> lines_ok es w -> lines_ok es (step e w).1.
Proof.
  intros Hin [Hq Ht]. unfold lines_ok.
  destruct (step_log_and_cursor e w) as [-> _]. rewrite step_result_q.
  destruct e as [indata|whisper now|inp| |c now| | ]; cbn [is_tick]; try done.
  - destruct (len (audio_chunk w) <? window_size); [done|].
    split; [|done]. rewrite map_app. apply Forall_app. split; [done|].
    by apply transcribe_window_provenance.
  - split; [constructor|]. rewrite drain_transcript. by apply Forall_app.
  - split; [constructor|]. rewrite drain_transcript. by apply Forall_app.
Qed.

Lemma run_lines_ok es0 es w :
  (forall e, In e es -> In e es0) -> lines_ok es0 w -> lines_ok es0 (run es w).1.
Proof.
  revert w. induction es as [|e es IH]; intros w Hsub H; simpl; [done|].
  pose proof (step_lines_ok es0 e w (Hsub e (or_introl eq_refl)) H) as H1.
  destruct (step e w) as [w1 eff1]. simpl in H1.
  assert (forall e', In e' es -> In e' es0) as Hsub' by (intros e' He'; apply Hsub; by right).
  specialize (IH w1 Hsub' H1). by destruct (run es w1).
Qed.

End Pipeline.

Arguments session : clear implicits.
Arguments world : clear implicits.
Arguments effect : clear implicits.
Arguments event : clear implicits.
Arguments rerun_input : clear implicits.
Arguments session_with_lines : clear implicits.

(** *** A failing summarisation service touches the summary log only *)

Section SummaryIndependence.

Context {sample : Type}.
Variable cfg : config.

Lemma same_world_refl (w : world sample) : same_world w w.
Proof. by repeat split. Qed.

Lemma drain_results_same q (s1 s2 : session sample) :
  same_but_summary s1 s2 ->
  same_but_summary (drain_results q s1) (drain_results q s2).
Proof.
  intros (Hr & Ht & Ha & Hi & Hs). unfold same_but_summary.
  rewrite !drain_results_transcript, !drain_results_audio.
  destruct (drain_results_frame q s1) as (-> & _ & -> & ->).
  destruct (drain_results_frame q s2) as (-> & _ & -> & ->).
  by rewrite Hr, Ht, Ha, Hi, Hs.
Qed.

Lemma drain_same (w1 w2 : world sample) : same_world w1 w2 -> same_world (drain w1) (drain w2).
Proof.
  intros (Hu & Ha & Hq & Hc & Hf). unfold same_world, drain. simpl.
  rewrite Hq. repeat split; try done. all: by apply drain_results_same.
Qed.

Lemma summary_check_same c1 n1 c2 n2 (s1 s2 : session sample) :
  same_but_summary s1 s2 ->
  same_but_summary (summary_check cfg c1 n1 s1).1 (summary_check cfg c2 n2 s2).1.
Proof.
  intros (Hr & Ht & Ha & Hi & Hs). unfold summary_check, check_fires.
  rewrite Ht, Hi.
  destruct (SUMMARY_INTERVAL cfg <=? len (transcript_text s2) - last_summary_idx s2);
    by repeat split.
Qed.

Lemma toggle_button_same start (s1 s2 : session sample) :
  same_but_summary s1 s2 ->
  same_but_summary (toggle_button start s1) (toggle_button start s2).
Proof.
  intros (Hr & Ht & Ha & Hi & Hs). unfold toggle_button. rewrite Hr.
  destruct (negb (recording s2)); [destruct start|]; simpl; rewrite ?Hs; by repeat split.
Qed.

Lemma set_ui_same (s1 s2 : session sample) (w1 w2 : world sample) :
  same_but_summary s1 s2 -> same_world w1 w2 ->
  same_world (set_ui s1 w1) (set_ui s2 w2).
Proof. intros Hs (_ & Ha & Hq & Hc & Hf). split; [exact Hs|by repeat split]. Qed.

Lemma save_audio_same (s1 s2 : session sample) (fs : gmap string (file sample)) :
  same_but_summary s1 s2 -> save_audio cfg s1 fs = save_audio cfg s2 fs.
Proof. intros (Hr & Ht & Ha & Hi & Hs). unfold save_audio. by rewrite Ha. Qed.

Lemma save_button_same (w1 w2 : world sample) :
  same_world w1 w2 -> same_world (save_button cfg w1) (save_button cfg w2).
Proof.
  intros (Hu & Ha & Hq & Hc & Hf). unfold save_button, set_files, same_world. simpl.
  rewrite (save_audio_same _ _ _ Hu), Hf.
  pose proof Hu as (Hr & Ht & Hab & Hi & Hs). rewrite Ht.
  split; [exact Hu|by repeat split].
Qed.

Lemma save_data_same (w1 w2 : world sample) :
  same_world w1 w2 -> same_world (save_data cfg w1) (save_data cfg w2).
Proof.
  intros (Hu & Ha & Hq & Hc & Hf). unfold save_data, set_files, same_world.
  rewrite (save_audio_same _ _ _ Hu), Hf.
  pose proof Hu as (Hr & Ht & Hab & Hi & Hs). rewrite Ht.
  destruct (transcript_text (ui w2)) eqn:E; simpl; (split; [exact Hu|by repeat split]).
Qed.

Lemma worker_step_same whisper now (w1 w2 : world sample) :
  same_world w1 w2 ->
  same_world (worker_step cfg whisper now w1).1 (worker_step cfg whisper now w2).1.
Proof.
  intros (Hu & Ha & Hq & Hc & Hf). unfold worker_step. rewrite Hc, Ha, Hq, Hf.
  destruct (len (audio_chunk w2) <? window_size cfg); [destruct (audio_q w2) eqn:E|];
    simpl; (split; [exact Hu|]); simpl; rewrite ?Ha, ?Hq, ?Hc, ?Hf, ?E; by repeat split.
Qed.

Lemma step_same e0 ev (w1 w2 : world sample) :
  same_world w1 w2 ->
  same_world (step cfg (fail_chat e0 ev) w1).1 (step cfg ev w2).1.
Proof.
  intros H. pose proof H as (Hu & Ha & Hq & Hc & Hf).
  destruct ev as [indata|whisper now|inp| |c now| | ]; simpl.
  - unfold audio_callback, same_world. simpl. by rewrite Ha.
  - by apply worker_step_same.
  - rewrite !scribe_rerun_world. cbv zeta. simpl.
    assert (same_world
              (set_ui (if toggle_clicked inp
                       then toggle_button (start_stream inp)
                              (summary_check cfg (Raises e0) (clock inp) (ui (drain w1))).1
                       else (summary_check cfg (Raises e0) (clock inp) (ui (drain w1))).1)
                 (drain w1))
              (set_ui (if toggle_clicked inp
                       then toggle_button (start_stream inp)
                              (summary_check cfg (chat inp) (clock inp) (ui (drain w2))).1
                       else (summary_check cfg (chat inp) (clock inp) (ui (drain w2))).1)
                 (drain w2))) as H3.
    { pose proof (drain_same _ _ H) as Hd. apply set_ui_same; [|done].
      destruct (toggle_clicked inp); [apply toggle_button_same|];
        apply summary_check_same, Hd. }
    destruct (save_clicked inp); [by apply save_button_same|done].
  - unfold cli_start. apply set_ui_same; [|done].
    destruct Hu as (Hr & Ht & Hab & Hi & Hs). by repeat split.
  - rewrite !cli_iteration_world.
    pose proof (drain_same _ _ H) as Hd. apply set_ui_same; [|done].
    apply summary_check_same, Hd.
  - unfold cli_interrupt. apply set_ui_same; [|done].
    destruct Hu as (Hr & Ht & Hab & Hi & Hs). by repeat split.
  - unfold cli_finally. apply save_data_same, set_ui_same; [|done].
    destruct Hu as (Hr & Ht & Hab & Hi & Hs). simpl. rewrite Hs. by repeat split.
Qed.

Lemma run_same e0 es (w1 w2 : world sample) :
  same_world w1 w2 ->
  same_world (run cfg (map (fail_chat e0) es) w1).1 (run cfg es w2).1.
Proof.
  revert w1 w2. induction es as [|ev es IH]; intros w1 w2 H; simpl; [done|].
  pose proof (step_same e0 ev w1 w2 H) as H1.
  destruct (step cfg (fail_chat e0 ev) w1) as [w1' eff1].
  destruct (step cfg ev w2) as [w2' eff2]. simpl in H1.
  specialize (IH w1' w2' H1).
  destruct (run cfg (map (fail_chat e0) es) w1'), (run cfg es w2'). done.
Qed.

End SummaryIndependence.

(** ** Python string operations on examples *)

Example strip_demo : strip (lit " hi there  ") = lit "hi there".
Proof. reflexivity. Qed.

Example strip_nbsp : strip [160%N; 104%N; 105%N; 8232%N] = lit "hi".
Proof. reflexivity. Qed.

Example split_demo :
  split (lit "]** ") (lit "**[00:00:01]** hello") = [lit "**[00:00:01"; lit "hello"].
Proof. reflexivity. Qed.

Example split_none : split (lit "]** ") (lit "hello") = [lit "hello"].
Proof. reflexivity. Qed.

Example split_twice :
  split (lit "]** ") (lit "**[00:00:01]** a]** b") = [lit "**[00:00:01"; lit "a"; lit "b"].
Proof. reflexivity. Qed.

Example join_demo : join (lit " ") [lit "hello"; lit "world"] = lit "hello world".
Proof. reflexivity. Qed.

Example contains_demo :
  contains MARKER (lit "BlackHole 2ch") = true
  /\ contains MARKER (lit "MacBook Pro Microphone") = false.
Proof. by split. Qed.

(** ** What [clean_line] returns on ordinary lines *)

Lemma split_go_plain sep cur s :
  contains sep s = false -> split_go sep 0 cur s = [rev cur ++ s].
Proof.
  revert cur. induction s as [|c s IH]; intros cur H.
  - simpl. by rewrite app_nil_r.
  - cbn [contains] in H. apply orb_false_iff in H as [H1 H2].
    cbn [split_go]. rewrite H1, IH by done. simpl. by rewrite <- app_assoc.
Qed.

Lemma startswith_separator c r :
  startswith (lit "]** ") (c :: r) = (93 =? c)%N && startswith (lit "** ") r.
Proof. reflexivity. Qed.

Lemma split_go_no_bracket pre cur s :
  Forall (fun c => c <> 93%N) pre ->
  split_go (lit "]** ") 0 cur (pre ++ s) = split_go (lit "]** ") 0 (rev pre ++ cur) s.
Proof.
  revert cur. induction pre as [|c pre IH]; intros cur H; [done|].
  apply Forall_cons in H as [Hc Hpre].
  cbn [app split_go].
  replace (startswith (lit "]** ") (c :: pre ++ s)) with false.
  - rewrite IH by done. simpl. by rewrite <- app_assoc.
  - rewrite startswith_separator. by destruct (N.eqb_spec 93 c).
Qed.

(** When the timestamp holds no closing bracket, as every [%H:%M:%S]
    does, and the text does not hold the separator, the comprehension
    element is the text. *)
Lemma clean_line_of_plain_text timestamp text :
  Forall (fun c => c <> 93%N) timestamp ->
  contains (lit "]** ") text = false ->
  clean_line (format_line timestamp text) = text.
Proof.
  intros Hts Htext. unfold clean_line, format_line, split.
  rewrite app_assoc, split_go_no_bracket.
  - change (lit "]** " ++ text) with (93%N :: 42%N :: 42%N :: 32%N :: text).
    cbn [split_go startswith lit]. simpl N.eqb. simpl andb. cbv iota.
    simpl length. simpl Nat.sub. cbn [split_go].
    rewrite split_go_plain by done. simpl.
    unfold last_piece. by destruct (rev _).
  - apply Forall_app. split; [|done].
    repeat constructor; discriminate.
Qed.

(** ** The claims *)

(** C1. The boundary cursor [last_summary_idx] never exceeds the length of
    the transcript log and never decreases, along any schedule and so after
    every tick of either front end; a step changes it only when it is a
    tick whose summary check fires, and then it becomes exactly the length
    of the log as drained at that check. *)
Theorem boundary_cursor_invariant (sample : Type) (cfg : config)
    (es : list (event sample)) (e : event sample) :
  let w := (run cfg es initial_world).1 in
  let w' := (step cfg e w).1 in
  0 <= last_summary_idx (ui w') <= len (transcript_text (ui w'))
  /\ last_summary_idx (ui w) <= last_summary_idx (ui w')
  /\ transcript_text (ui w') =
       (if is_tick e then transcript_text (ui (drain w)) else transcript_text (ui w))
  /\ last_summary_idx (ui w') =
       (if is_tick e && check_fires cfg (ui (drain w))
        then len (transcript_text (ui (drain w)))
        else last_summary_idx (ui w)).
Proof.
  intros w w'.
  assert (boundary_ok w) as Hw by apply run_boundary_ok, initial_boundary_ok.
  assert (boundary_ok w') as Hw' by by apply step_boundary_ok.
  destruct (step_log_and_cursor cfg e w) as [Ht Hi]. fold w' in Ht, Hi.
  split; [exact Hw'|]. split; [|by split].
  rewrite Hi. destruct (is_tick e && check_fires cfg (ui (drain w))); [|lia].
  rewrite drain_transcript, len_app.
  pose proof (len_nonneg (map fst (result_q w))).
  unfold boundary_ok in Hw. lia.
Qed.

(** C2. Once the accumulated sample count has reached
    [SAMPLE_RATE * CHUNK_DURATION], the turn of the batching loop issues
    exactly one transcription call, on that window, takes nothing more from
    the audio queue, and leaves the accumulation buffer empty for the next
    window. *)
Theorem full_window_transcribed_once (sample : Type) (cfg : config)
    (whisper : outcome str) (now : str) (w : world sample) :
  SAMPLE_RATE cfg * CHUNK_DURATION cfg <= len (audio_chunk w) ->
  (worker_step cfg whisper now w).2 = [Transcribe WHISPER_MODEL (audio_chunk w)]
  /\ audio_chunk (worker_step cfg whisper now w).1 = []
  /\ audio_q (worker_step cfg whisper now w).1 = audio_q w.
Proof.
  intros H. by rewrite worker_step_full.
Qed.

Lemma full_window_transcribed_once_witness :
  let w := world_with_chunk (replicate (Z.to_nat 112000) 0) in
  SAMPLE_RATE scribe_config * CHUNK_DURATION scribe_config <= len (audio_chunk w)
  /\ (worker_step scribe_config (Returns (lit "hello")) (lit "00:00:01") w).2
       = [Transcribe WHISPER_MODEL (audio_chunk w)]
  /\ audio_chunk (worker_step scribe_config (Returns (lit "hello")) (lit "00:00:01") w).1 = [].
Proof.
  intros w.
  assert (SAMPLE_RATE scribe_config * CHUNK_DURATION scribe_config <= len (audio_chunk w)) as H
    by (vm_compute; discriminate).
  split; [exact H|].
  destruct (full_window_transcribed_once Z scribe_config (Returns (lit "hello"))
              (lit "00:00:01") w H) as (H1 & H2 & _).
  by split.
Defined.

(** C3. When the summarisation call raises in a tick whose check fires, in
    either front end exactly one call was made and the summary log grows
    by exactly one entry: two line feeds, the heading with the clock
    string, a line feed, and the visible error string, the warning sign
    followed by [LLM Error:] and the message of the exception; so the log
    gets longer by 26 characters plus the clock string and the message.
    The cursor still advances to the log length, and the pending
    transcript lines are all appended.  Along any schedule, a service that
    always raises leaves the transcript log, the audio buffer, the cursor
    and the queues as they would be with a working service. *)
Theorem failed_summary_still_advances (sample : Type) (cfg : config)
    (w : world sample) (e now : str) (inp : rerun_input) :
  check_fires cfg (ui (drain w)) = true ->
  chat inp = Raises e ->
  clock inp = now ->
  (forall w', w' = (cli_iteration cfg (Raises e) now w).1 \/ w' = (scribe_rerun cfg inp w).1 ->
     summary_log (ui w') =
       summary_log (ui w) ++ summary_entry now (llm_error_prefix ++ e)
     /\ summary_log (ui w') =
       summary_log (ui w)
         ++ [10%N; 10%N] ++ lit "**Time " ++ now ++ lit "**" ++ [10%N]
         ++ [9888%N; 65039%N] ++ lit " LLM Error: " ++ e
     /\ len (summary_log (ui w')) = len (summary_log (ui w)) + 26 + len now + len e
     /\ last_summary_idx (ui w') = len (transcript_text (ui w'))
     /\ transcript_text (ui w') = transcript_text (ui w) ++ map fst (result_q w))
  /\ (cli_iteration cfg (Raises e) now w).2
       = [OllamaChat OLLAMA_MODEL (summary_prompt (clean_text (ui (drain w))))]
  /\ (scribe_rerun cfg inp w).2
       = [OllamaChat OLLAMA_MODEL (summary_prompt (clean_text (ui (drain w))))]
  /\ (forall (es : list (event sample)) (e0 : str),
        same_world (run cfg (map (fail_chat e0) es) w).1 (run cfg es w).1).
Proof.
  intros Hf Hc Hn.
  assert (summary_entry now (llm_error_prefix ++ e)
          = [10%N; 10%N] ++ lit "**Time " ++ now ++ lit "**" ++ [10%N]
              ++ [9888%N; 65039%N] ++ lit " LLM Error: " ++ e) as Hentry.
  { unfold summary_entry, llm_error_prefix, nl. by rewrite <- !app_assoc. }
  assert (len (summary_entry now (llm_error_prefix ++ e)) = 26 + len now + len e) as Hlen.
  { rewrite Hentry. unfold len. rewrite !length_app. simpl length. lia. }
  split; [|split; [|split; [|intros es e0; apply run_same, same_world_refl]]].
  - assert (forall s', s' = (summary_check cfg (Raises e) now (ui (drain w))).1 ->
              summary_log s' = summary_log (ui w) ++ summary_entry now (llm_error_prefix ++ e)
              /\ last_summary_idx s' = len (transcript_text s')
              /\ transcript_text s' = transcript_text (ui w) ++ map fst (result_q w)) as Hs.
    { intros s' ->. rewrite summary_check_fired by done. simpl.
      destruct (drain_results_frame (result_q w) (ui w)) as (_ & -> & _).
      by rewrite drain_results_transcript. }
    assert (forall w' : world sample,
              summary_log (ui w') = summary_log (ui w) ++ summary_entry now (llm_error_prefix ++ e) ->
              last_summary_idx (ui w') = len (transcript_text (ui w')) ->
              transcript_text (ui w') = transcript_text (ui w) ++ map fst (result_q w) ->
              summary_log (ui w') = summary_log (ui w) ++ summary_entry now (llm_error_prefix ++ e)
              /\ summary_log (ui w') =
                   summary_log (ui w)
                     ++ [10%N; 10%N] ++ lit "**Time " ++ now ++ lit "**" ++ [10%N]
                     ++ [9888%N; 65039%N] ++ lit " LLM Error: " ++ e
              /\ len (summary_log (ui w')) = len (summary_log (ui w)) + 26 + len now + len e
              /\ last_summary_idx (ui w') = len (transcript_text (ui w'))
              /\ transcript_text (ui w') = transcript_text (ui w) ++ map fst (result_q w)) as Hall.
    { intros w' H1 H2 H3. split; [done|]. split; [by rewrite H1, Hentry|].
      split; [|by split]. rewrite H1, len_app, Hlen. lia. }
    intros w' [-> | ->]; apply Hall.
    + rewrite cli_iteration_ui. by apply Hs.
    + rewrite cli_iteration_ui. by apply Hs.
    + rewrite cli_iteration_ui. by apply Hs.
    + rewrite scribe_rerun_ui, Hc, Hn. cbv zeta.
      destruct (Hs _ eq_refl) as (H1 & H2 & H3).
      destruct (toggle_clicked inp); [|done].
      by destruct (toggle_button_frame (start_stream inp)
                     (summary_check cfg (Raises e) now (ui (drain w))).1)
        as (_ & _ & -> & _).
    + rewrite scribe_rerun_ui, Hc, Hn. cbv zeta.
      destruct (Hs _ eq_refl) as (H1 & H2 & H3).
      destruct (toggle_clicked inp); [|done].
      by destruct (toggle_button_frame (start_stream inp)
                     (summary_check cfg (Raises e) now (ui (drain w))).1)
        as (-> & _ & _ & ->).
    + rewrite scribe_rerun_ui, Hc, Hn. cbv zeta.
      destruct (Hs _ eq_refl) as (H1 & H2 & H3).
      destruct (toggle_clicked inp); [|done].
      by destruct (toggle_button_frame (start_stream inp)
                     (summary_check cfg (Raises e) now (ui (drain w))).1)
        as (-> & _ & _ & _).
  - unfold cli_iteration. by rewrite summary_check_fired.
  - unfold scribe_rerun. rewrite Hc, Hn. by rewrite summary_check_fired.
Qed.

Lemma failed_summary_still_advances_witness :
  let pending_lines :=
    replicate 15 (format_line (lit "00:00:01") (lit "hi"), [0; 0]) in
  let w := {| ui := initial_session; audio_q := []; result_q := pending_lines;
              audio_chunk := []; files := ∅ |} in
  check_fires cli_config (ui (drain w)) = true
  /\ last_summary_idx (ui (cli_iteration cli_config (Raises (lit "down")) (lit "10:30") w).1) = 15
  /\ summary_log (ui (cli_iteration cli_config (Raises (lit "down")) (lit "10:30") w).1) =
       [10%N; 10%N] ++ lit "**Time 10:30**" ++ [10%N]
         ++ [9888%N; 65039%N] ++ lit " LLM Error: down"
  /\ len (summary_log (ui (cli_iteration cli_config (Raises (lit "down")) (lit "10:30") w).1))
       = 35.
Proof.
  intros pending_lines w.
  assert (check_fires cli_config (ui (drain w)) = true) as H by reflexivity.
  split; [exact H|].
  destruct (failed_summary_still_advances Z cli_config w (lit "down") (lit "10:30")
              {| chat := Raises (lit "down"); clock := lit "10:30";
                 toggle_clicked := false; start_stream := Returns tt;
                 save_clicked := false |} H eq_refl eq_refl) as [Ht _].
  destruct (Ht _ (or_introl eq_refl)) as (_ & Hl & Hn & Hi & Htx).
  split; [|split; [exact Hl|exact Hn]].
  rewrite Hi, Htx. reflexivity.
Defined.

(** The example of the specification: two lines, [hello] and [world], and
    a summary interval of 2. *)
Example summary_of_hello_world :
  let cfg := {| SAMPLE_RATE := 16000; CHUNK_DURATION := 5; SUMMARY_INTERVAL := 2 |} in
  let s := session_with_lines Z
             [lit "**[00:00:01]** hello"; lit "**[00:00:02]** world"] in
  (summary_check cfg (Returns (lit "Mood: calm")) (lit "10:30") s).2
    = [OllamaChat OLLAMA_MODEL (summary_prompt (lit "hello world"))]
  /\ last_summary_idx (summary_check cfg (Returns (lit "Mood: calm")) (lit "10:30") s).1 = 2
  /\ (summary_check cfg (Returns (lit "Mood: calm")) (lit "10:31")
        (summary_check cfg (Returns (lit "Mood: calm")) (lit "10:30") s).1).2 = [].
Proof. by vm_compute. Qed.

(** C4. The text handed to the summarisation service is the space-joined
    last [split] piece of every line since the boundary.  On a line whose
    transcribed text itself holds the separator, that is less than the
    text behind the timestamp: with fifteen lines in [scribe_cli.py], the
    first transcribed as [a]** b], the call is made with [b ok ... ok] and
    not with [a]** b ok ... ok]. *)
Theorem clean_text_of_line_with_separator :
  let texts := lit "a]** b" :: replicate 14 (lit "ok") in
  let lines := map (format_line (lit "00:00:01")) texts in
  let s := session_with_lines Z lines in
  (summary_check cli_config (Returns (lit "Mood: calm")) (lit "10:30") s).2
    = [OllamaChat OLLAMA_MODEL
         (summary_prompt (join (lit " ") (lit "b" :: replicate 14 (lit "ok"))))]
  /\ last_summary_idx (summary_check cli_config (Returns (lit "Mood: calm")) (lit "10:30") s).1 = 15
  /\ join (lit " ") (lit "b" :: replicate 14 (lit "ok")) <> join (lit " ") texts.
Proof. by vm_compute. Qed.

(** C5. A line reaches the results queue, and from there the transcript
    log, only as the formatted non-empty stripped text of a transcription
    that returned; a result that is empty or all whitespace puts nothing on
    the queue. *)
Theorem only_nonempty_text_is_logged (sample : Type) (cfg : config)
    (es : list (event sample)) :
  let w := (run cfg es initial_world).1 in
  Forall (from_transcription es) (transcript_text (ui w))
  /\ Forall (from_transcription es) (map fst (result_q w))
  /\ (forall raw now (np_audio : list sample),
        transcribe_window (Returns raw) now np_audio =
          if forallb is_space raw then []
          else [(format_line now (strip raw), np_audio)])
  /\ (forall raw, strip raw = [] <-> forallb is_space raw = true).
Proof.
  intros w.
  destruct (run_lines_ok cfg es es initial_world) as [Hq Ht].
  { done. }
  { split; constructor. }
  split; [exact Ht|]. split; [exact Hq|]. split.
  - intros. apply transcribe_window_returns.
  - apply strip_nil.
Qed.

Lemma save_audio_transcript_file (sample : Type) (cfg : config)
    (s : session sample) (fs : gmap string (file sample)) :
  save_audio cfg s fs !! TRANSCRIPT_FILE = fs !! TRANSCRIPT_FILE.
Proof.
  unfold save_audio. destruct (audio_buffer s); [done|].
  by rewrite lookup_insert_ne.
Qed.

(** C6, as the claim has it, fails for [save_data] of [scribe_cli.py]:
    with an empty transcript log it leaves an existing transcript file as
    it was, and creates none where there was none. *)
Lemma cli_save_keeps_old_transcript_file :
  let old : file Z := TextFile (lit "**[09:00:00]** yesterday") in
  let w := {| ui := initial_session; audio_q := []; result_q := [];
              audio_chunk := []; files := {[ TRANSCRIPT_FILE := old ]} |} in
  transcript_text (ui w) = []
  /\ files (save_data cli_config w) !! TRANSCRIPT_FILE = Some old
  /\ files (save_data cli_config w) !! TRANSCRIPT_FILE <> Some (TextFile [])
  /\ files (save_data cli_config (@initial_world Z)) !! TRANSCRIPT_FILE = None.
Proof.
  intros old w. split; [done|]. split; [|split].
  - unfold save_data. simpl. unfold save_audio. simpl. apply lookup_singleton_eq.
  - unfold save_data. simpl. unfold save_audio. simpl.
    rewrite lookup_singleton_eq. discriminate.
  - done.
Qed.

(** C6, amended.  With an empty transcript log, the save button of
    [scribe.py] makes the transcript file the empty file, whatever was
    there before, while [save_data] of [scribe_cli.py] does not write the
    transcript file at all. *)
Theorem save_with_empty_transcript (sample : Type) (cfg : config) (w : world sample) :
  transcript_text (ui w) = [] ->
  files (save_button cfg w) !! TRANSCRIPT_FILE = Some (TextFile [])
  /\ files (save_data cfg w) !! TRANSCRIPT_FILE = files w !! TRANSCRIPT_FILE.
Proof.
  intros H. unfold save_button, save_data. rewrite H. simpl. split.
  - apply lookup_insert_eq.
  - apply save_audio_transcript_file.
Qed.

Lemma save_with_empty_transcript_witness :
  let old : file Z := TextFile (lit "**[09:00:00]** yesterday") in
  let w := {| ui := initial_session; audio_q := []; result_q := [];
              audio_chunk := []; files := {[ TRANSCRIPT_FILE := old ]} |} in
  transcript_text (ui w) = []
  /\ files (save_button scribe_config w) !! TRANSCRIPT_FILE = Some (TextFile [])
  /\ files (save_data cli_config w) !! TRANSCRIPT_FILE = Some old.
Proof.
  intros old w.
  assert (transcript_text (ui w) = []) as H by reflexivity.
  split; [exact H|]. split.
  - exact (proj1 (save_with_empty_transcript Z scribe_config w H)).
  - rewrite (proj2 (save_with_empty_transcript Z cli_config w H)).
    apply lookup_singleton_eq.
Defined.

(** C7, as the claim has it, fails for an exception raised before the
    [try]: when the temporary file cannot be written the exception is not
    caught, the thread ends, and no later turn transcribes anything, with
    audio for another window already queued. *)
Lemma tempfile_error_ends_thread :
  let buf := replicate (Z.to_nat 60000) 0 in
  let w := {| ui := initial_session; audio_q := [buf; buf]; result_q := [];
              audio_chunk := replicate (Z.to_nat 112000) 0; files := ∅ |} in
  let full := lit "No space left on device" in
  let hello := Returns (lit "hello") in
  let now := lit "00:00:07" in
  let r1 := processing_turn scribe_config (Raises full) hello now Alive w in
  let r2 := processing_turn scribe_config (Returns tt) hello now r1.1.1 r1.1.2 in
  let r3 := processing_turn scribe_config (Returns tt) hello now r2.1.1 r2.1.2 in
  let r4 := processing_turn scribe_config (Returns tt) hello now r3.1.1 r3.1.2 in
  r1.1.1 = Died full
  /\ r4.1.1 = Died full
  /\ windows (r1.2 ++ r2.2 ++ r3.2 ++ r4.2) = []
  /\ map len (audio_q r4.1.2) = [60000; 60000]
  /\ result_q r4.1.2 = [].
Proof. by vm_compute. Qed.

(** C7, amended.  On a complete window, an exception raised inside the
    [try], by the transcription call or by reading its result, is caught:
    the turn makes its one transcription call and changes nothing but the
    accumulation buffer, which becomes empty, so nothing is put on the
    results queue, the session with its transcript log is as before, the
    thread lives on and its next turn starts collecting a fresh window
    from the audio queue.  An exception raised before the [try], by
    creating or writing the temporary file, is not caught: no call is
    made, nothing is put on the results queue and the session is as
    before, but the thread ends, and no turn after that does anything. *)
Theorem transcription_error_drops_window (sample : Type) (cfg : config)
    (w : world sample) (e now : str) :
  0 < SAMPLE_RATE cfg * CHUNK_DURATION cfg ->
  SAMPLE_RATE cfg * CHUNK_DURATION cfg <= len (audio_chunk w) ->
  let w' := {| ui := ui w; audio_q := audio_q w; result_q := result_q w;
               audio_chunk := []; files := files w |} in
  (worker_step cfg (Raises e) now w).1 = w'
  /\ processing_turn cfg (Returns tt) (Raises e) now Alive w
       = (Alive, w', [Transcribe WHISPER_MODEL (audio_chunk w)])
  /\ (forall tmp whisper now' data q, audio_q w = data :: q ->
        processing_turn cfg tmp whisper now' Alive w' =
          (Alive,
           {| ui := ui w; audio_q := q; result_q := result_q w;
              audio_chunk := data; files := files w |}, []))
  /\ (forall chat now', transcript_text (ui (cli_iteration cfg chat now' w').1)
        = transcript_text (ui (cli_iteration cfg chat now' w).1))
  /\ (forall whisper e',
        processing_turn cfg (Raises e') whisper now Alive w = (Died e', w', []))
  /\ (forall tmp whisper now' e' (w'' : world sample),
        processing_turn cfg tmp whisper now' (Died e') w'' = (Died e', w'', [])).
Proof.
  intros Hpos Hfull w'.
  assert ((len (audio_chunk w) <? window_size cfg) = false) as Hge
    by (apply Z.ltb_ge; exact Hfull).
  assert (worker_step cfg (Raises e) now w
          = (w', [Transcribe WHISPER_MODEL (audio_chunk w)])) as Hstep.
  { rewrite worker_step_full by done. simpl. by rewrite app_nil_r. }
  split; [by rewrite Hstep|]. split; [|split; [|split; [|split]]].
  - unfold processing_turn. by rewrite Hge, Hstep.
  - intros tmp whisper now' data q Hq. unfold processing_turn.
    replace (len (audio_chunk w') <? window_size cfg) with true
      by (symmetry; apply Z.ltb_lt; unfold window_size, len; simpl; lia).
    rewrite worker_step_short by (simpl; unfold window_size, len; simpl; lia).
    simpl. by rewrite Hq.
  - intros c now'. rewrite !cli_iteration_ui, !summary_check_transcript.
    by rewrite !drain_transcript.
  - intros whisper e'. unfold processing_turn. by rewrite Hge.
  - done.
Qed.

Lemma transcription_error_drops_window_witness :
  let w := {| ui := initial_session; audio_q := [[1; 2; 3]];
              result_q := [];
              audio_chunk := replicate (Z.to_nat 112000) 0; files := ∅ |} in
  let w' := {| ui := initial_session; audio_q := [[1; 2; 3]]; result_q := [];
               audio_chunk := []; files := ∅ |} in
  0 < SAMPLE_RATE scribe_config * CHUNK_DURATION scribe_config
  /\ SAMPLE_RATE scribe_config * CHUNK_DURATION scribe_config <= len (audio_chunk w)
  /\ (worker_step scribe_config (Raises (lit "decode failed")) (lit "00:00:07") w).1 = w'
  /\ processing_turn scribe_config (Returns tt) (Raises (lit "decode failed"))
       (lit "00:00:07") Alive w
       = (Alive, w', [Transcribe WHISPER_MODEL (audio_chunk w)])
  /\ processing_turn scribe_config (Raises (lit "disk full")) (Returns (lit "hello"))
       (lit "00:00:07") Alive w
       = (Died (lit "disk full"), w', []).
Proof.
  intros w w'.
  assert (0 < SAMPLE_RATE scribe_config * CHUNK_DURATION scribe_config) as H0 by reflexivity.
  assert (SAMPLE_RATE scribe_config * CHUNK_DURATION scribe_config <= len (audio_chunk w)) as H1
    by (vm_compute; discriminate).
  split; [exact H0|]. split; [exact H1|].
  destruct (transcription_error_drops_window Z scribe_config w
              (lit "decode failed") (lit "00:00:07") H0 H1) as (Ha & Hb & _ & _ & Hc & _).
  split; [exact Ha|]. split; [exact Hb|].
  exact (Hc (Returns (lit "hello")) (lit "disk full")).
Defined.

(** The scan of the enumerated list ends at the position of the first entry
    whose name holds the marker, or with [default_idx] untouched. *)
Lemma scan_marker_find {A : Type} (g : A -> str) (l : list A) (i d : Z) :
  match List.find (fun x => contains MARKER (g x)) l with
  | Some x =>
      exists k : nat, scan_marker i (map g l) d = i + Z.of_nat k /\ l !! k = Some x
  | None => scan_marker i (map g l) d = d
  end.
Proof.
  revert i. induction l as [|a l IH]; intros i; simpl; [done|].
  destruct (contains MARKER (g a)).
  - exists 0%nat. split; [lia|done].
  - specialize (IH (i + 1)).
    destruct (List.find (fun x => contains MARKER (g x)) l); [|done].
    destruct IH as (k & Hk & Hl). exists (S k). split; [lia|done].
Qed.

Lemma find_map_name (l : list device) :
  List.find (contains MARKER) (map name l) =
    name <$> List.find (fun d => contains MARKER (name d)) l.
Proof.
  induction l as [|a l IH]; simpl; [done|].
  by destruct (contains MARKER (name a)).
Qed.

(** C8. With no explicit choice, both front ends select the first input
    device whose name contains [BlackHole] when there is one, and the first
    input device otherwise: [scribe.py] as the preselected option of its
    select box, [scribe_cli.py] as the device whose id it returns on an
    empty answer. *)
Theorem default_device_selection (py_int : str -> option Z)
    (device_list : list device) :
  let devs := input_devices device_list in
  let marked := List.find (fun d => contains MARKER (name d)) devs in
  scribe_selected_device device_list None =
    match marked with
    | Some d => Some (name d)
    | None => head (map name devs)
    end
  /\ select_input_device py_int (Returns device_list) (Typed []) =
    match devs, marked with
    | [], _ => Exit 1
    | _ :: _, Some d => Device (index d)
    | d :: _, None => Device (index d)
    end.
Proof.
  intros devs marked. split.
  - unfold scribe_selected_device, selectbox, scribe_default_idx, input_names.
    fold devs.
    pose proof (scan_marker_find name devs 0 0) as H. fold marked in H.
    destruct marked as [d|].
    + destruct H as (k & -> & Hk). rewrite Z.add_0_l, Nat2Z.id.
      by rewrite list_lookup_fmap, Hk.
    + rewrite H. by destruct devs.
  - unfold select_input_device. fold devs.
    pose proof (scan_marker_find name devs 0 (-1)) as H. fold marked in H.
    destruct devs as [|d0 ds] eqn:E; [done|].
    destruct marked as [d|].
    + destruct H as (k & -> & Hk).
      replace (0 + Z.of_nat k =? -1) with false by (symmetry; apply Z.eqb_neq; lia).
      simpl negb. cbv iota.
      unfold py_index.
      replace (0 + Z.of_nat k <? 0) with false by (symmetry; apply Z.ltb_ge; lia).
      rewrite Z.add_0_l, Nat2Z.id, Hk. done.
    + rewrite H. done.
Qed.

(** C9. Saving writes files and nothing else: in either front end the
    session (recording flag, transcript log, audio buffer, summary log,
    cursor, stream) and the queues are after the save what they were
    before it, whether recording or not, and a run of the [scribe.py]
    script leaves the same session with the save button clicked as
    without. *)
Theorem save_leaves_state (sample : Type) (cfg : config) (w : world sample)
    (c : outcome str) (now : str) (toggle : bool) (start : outcome unit) :
  let rerun save :=
    scribe_rerun cfg {| chat := c; clock := now; toggle_clicked := toggle;
                        start_stream := start; save_clicked := save |} w in
  ui (save_button cfg w) = ui w
  /\ ui (save_data cfg w) = ui w
  /\ (audio_q (save_button cfg w), result_q (save_button cfg w), audio_chunk (save_button cfg w))
       = (audio_q w, result_q w, audio_chunk w)
  /\ (audio_q (save_data cfg w), result_q (save_data cfg w), audio_chunk (save_data cfg w))
       = (audio_q w, result_q w, audio_chunk w)
  /\ ui (rerun true).1 = ui (rerun false).1
  /\ (rerun true).2 = (rerun false).2.
Proof.
  intros rerun. unfold save_button, save_data.
  repeat split; try done; try (by destruct (transcript_text (ui w))).
  - unfold rerun. by rewrite !scribe_rerun_ui.
  - unfold rerun, scribe_rerun. cbn [chat clock toggle_clicked start_stream save_clicked].
    by destruct (summary_check cfg c now (ui (drain w))).
Qed.

(** C10. Every window handed to transcription holds at least
    [SAMPLE_RATE * CHUNK_DURATION] samples, along any schedule; and it can
    hold more, since whole driver buffers are appended: two buffers of
    60000 samples make one window of 120000 in both front ends, where the
    window sizes are 112000 and 80000. *)
Theorem windows_at_least_window_size :
  (forall (sample : Type) (cfg : config) (es : list (event sample)),
     Forall (fun np_audio => SAMPLE_RATE cfg * CHUNK_DURATION cfg <= len np_audio)
       (windows (run cfg es (@initial_world sample)).2))
  /\ (let buf := replicate (Z.to_nat 60000) 0 in
      let es := [AudioCallback buf; AudioCallback buf;
                 WorkerStep (Returns (lit "hi")) (lit "00:00:05");
                 WorkerStep (Returns (lit "hi")) (lit "00:00:05");
                 WorkerStep (Returns (lit "hi")) (lit "00:00:05")] in
      map len (windows (run scribe_config es initial_world).2) = [120000]
      /\ map len (windows (run cli_config es initial_world).2) = [120000]
      /\ SAMPLE_RATE scribe_config * CHUNK_DURATION scribe_config = 112000
      /\ SAMPLE_RATE cli_config * CHUNK_DURATION cli_config = 80000).
Proof.
  split.
  - intros sample cfg es.
    pose proof (run_calls_ok cfg es initial_world) as H.
    induction H as [|ef effs Hef _ IH]; simpl; [constructor|].
    destruct ef as [m a|m p]; [|exact IH].
    constructor; [exact Hef|exact IH].
  - by vm_compute.
Qed.

(** ** Further properties of the pipeline *)

Section PipelineExtras.

Context {sample : Type}.
Variable cfg : config.

Implicit Types (w : world sample) (es : list (event sample)) (e : event sample).

Lemma run_cons_fst e es w :
  (run cfg (e :: es) w).1 = (run cfg es (step cfg e w).1).1.
Proof.
  cbn [run]. destruct (step cfg e w) as [w1 eff1]. cbn [fst snd].
  by destruct (run cfg es w1).
Qed.

Lemma run_cons_snd e es w :
  (run cfg (e :: es) w).2 = (step cfg e w).2 ++ (run cfg es (step cfg e w).1).2.
Proof.
  cbn [run]. destruct (step cfg e w) as [w1 eff1]. cbn [fst snd].
  by destruct (run cfg es w1).
Qed.

Lemma windows_of_calls_ok (effs : list (effect sample)) :
  Forall (call_ok cfg) effs ->
  Forall (fun np_audio => window_size cfg <= len np_audio) (windows effs).
Proof.
  induction 1 as [|ef effs Hef _ IH]; simpl; [constructor|].
  destruct ef as [m a|m p]; [|exact IH].
  constructor; [exact Hef|exact IH].
Qed.

Lemma len_concat_cons {A : Type} (a : list A) (l : list (list A)) :
  len (concat (a :: l)) = len a + len (concat l).
Proof. simpl. apply len_app. Qed.

Lemma worker_step_ui whisper now w : ui (worker_step cfg whisper now w).1 = ui w.
Proof.
  unfold worker_step.
  destruct (len (audio_chunk w) <? window_size cfg); [destruct (audio_q w)|]; done.
Qed.

Lemma summary_check_frame c now (s : session sample) :
  recording (summary_check cfg c now s).1 = recording s
  /\ audio_buffer (summary_check cfg c now s).1 = audio_buffer s
  /\ stream (summary_check cfg c now s).1 = stream s.
Proof. unfold summary_check. by destruct (check_fires cfg s). Qed.

Lemma tick_effects e w :
  is_tick e = true ->
  exists c now, (step cfg e w).2 = (summary_check cfg c now (ui (drain w))).2.
Proof.
  destruct e as [indata|whisper now|inp| |c now| | ]; try discriminate; intros _; cbn [step].
  - exists (chat inp), (clock inp). unfold scribe_rerun.
    by destruct (summary_check cfg (chat inp) (clock inp) (ui (drain w))).
  - exists c, now. unfold cli_iteration.
    by destruct (summary_check cfg c now (ui (drain w))).
Qed.

(** X1. Every sample the driver delivered is, in order of arrival, in
    exactly one transcribed window or still waiting in [audio_chunk] or
    [audio_q]: windows neither overlap, nor skip, nor reorder samples. *)
Theorem samples_conserved es :
  concat (windows (run cfg es initial_world).2)
    ++ audio_chunk (run cfg es initial_world).1
    ++ concat (audio_q (run cfg es initial_world).1)
  = concat (delivered es).
Proof. exact (run_conserves cfg es initial_world). Qed.

(** X2. Without further audio callbacks, samples that do not fill a window
    are never transcribed, whatever else runs: stopping the stream leaves
    the unfinished window unflushed. *)
Theorem short_window_never_transcribed w es :
  len (audio_chunk w ++ concat (audio_q w)) < window_size cfg ->
  delivered es = [] ->
  windows (run cfg es w).2 = [].
Proof.
  intros Hshort Hnone.
  pose proof (run_conserves cfg es w) as Hc. rewrite Hnone in Hc.
  simpl in Hc. rewrite app_nil_r in Hc. fold (pending w) in Hshort.
  pose proof (windows_of_calls_ok _ (run_calls_ok cfg es w)) as Hw.
  destruct (windows (run cfg es w).2) as [|a r]; [done|].
  apply Forall_cons in Hw as [Ha _].
  apply (f_equal len) in Hc. rewrite len_app, len_concat_cons in Hc.
  pose proof (len_nonneg (concat r)). pose proof (len_nonneg (pending (run cfg es w).1)).
  lia.
Qed.

(** X3. When the samples held and queued reach the window size, the
    background thread on its own transcribes a window within one turn more
    than there are queued buffers. *)
Theorem enough_samples_get_transcribed es w :
  window_size cfg <= len (audio_chunk w ++ concat (audio_q w)) ->
  forallb is_worker es = true ->
  (length (audio_q w) < length es)%nat ->
  windows (run cfg es w).2 <> [].
Proof.
  revert w. induction es as [|e es IH]; intros w Hlen Hall Hn; [simpl in Hn; lia|].
  simpl in Hall. apply andb_true_iff in Hall as [He Hes].
  destruct e as [indata|whisper now|inp| |c now| | ]; try discriminate.
  simpl run. simpl step.
  destruct (Z.ltb_spec (len (audio_chunk w)) (window_size cfg)) as [Hlt|Hge].
  - rewrite worker_step_short by done.
    destruct (audio_q w) as [|data q] eqn:Eq.
    + simpl in Hlen. rewrite app_nil_r in Hlen. lia.
    + specialize (IH {| ui := ui w; audio_q := q; result_q := result_q w;
                        audio_chunk := audio_chunk w ++ data; files := files w |}).
      simpl in IH. simpl in Hlen, Hn. rewrite <- app_assoc in IH.
      specialize (IH Hlen Hes ltac:(lia)).
      by destruct (run cfg es _).
  - rewrite worker_step_full by done.
    by destruct (run cfg es _).
Qed.

(** What a step does to the audio buffer, the summary log, the recording
    flag and the stream. *)
Lemma step_audio_buffer e w :
  audio_buffer (ui (step cfg e w).1) =
    if is_tick e then audio_buffer (ui w) ++ map snd (result_q w)
    else audio_buffer (ui w).
Proof.
  destruct e as [indata|whisper now|inp| |c now| | ]; cbn [step is_tick fst]; try done.
  - by rewrite worker_step_ui.
  - rewrite scribe_rerun_ui. cbv zeta.
    destruct (summary_check_frame (chat inp) (clock inp) (ui (drain w))) as (_ & Ha & _).
    unfold drain in Ha at 2. cbn [ui] in Ha. rewrite drain_results_audio in Ha.
    destruct (toggle_clicked inp); [|done].
    by destruct (toggle_button_frame (start_stream inp)
                   (summary_check cfg (chat inp) (clock inp) (ui (drain w))).1)
      as (_ & -> & _).
  - rewrite cli_iteration_ui.
    destruct (summary_check_frame c now (ui (drain w))) as (_ & -> & _).
    unfold drain. cbn [ui]. apply drain_results_audio.
  - unfold cli_finally, save_data. cbn [ui set_ui transcript_text].
    by destruct (transcript_text (ui w)).
Qed.

Lemma step_summary_log e w :
  summary_log (ui w) `prefix_of` summary_log (ui (step cfg e w).1).
Proof.
  assert (forall c now (s : session sample),
            summary_log s `prefix_of` summary_log (summary_check cfg c now s).1) as Hs.
  { intros c now s. unfold summary_check. destruct (check_fires cfg s); [|done].
    by apply prefix_app_r. }
  assert (summary_log (ui (drain w)) = summary_log (ui w)) as Hd.
  { unfold drain. cbn [ui]. apply drain_results_frame. }
  destruct e as [indata|whisper now|inp| |c now| | ]; cbn [step fst]; try done.
  - by rewrite worker_step_ui.
  - rewrite scribe_rerun_ui. cbv zeta. rewrite <- Hd.
    destruct (toggle_clicked inp); [|apply Hs].
    destruct (toggle_button_frame (start_stream inp)
                (summary_check cfg (chat inp) (clock inp) (ui (drain w))).1)
      as (_ & _ & -> & _).
    apply Hs.
  - rewrite cli_iteration_ui, <- Hd. apply Hs.
  - unfold cli_finally, save_data. cbn [ui set_ui transcript_text].
    by destruct (transcript_text (ui w)).
Qed.

(** X4. If no driver buffer holds more than [B] samples, no transcribed
    window holds as many as the window size plus [B]: a window overshoots
    the window size by less than one driver buffer. *)
Theorem window_overshoot_bounded es (B : Z) :
  0 < window_size cfg ->
  0 <= B ->
  Forall (fun indata => len indata <= B) (delivered es) ->
  Forall (fun np_audio => len np_audio < window_size cfg + B)
    (windows (run cfg es initial_world).2).
Proof.
  intros Hpos HB.
  assert (forall es w,
            len (audio_chunk w) < window_size cfg + B ->
            Forall (fun d => len d <= B) (audio_q w) ->
            Forall (fun d => len d <= B) (delivered es) ->
            Forall (fun a => len a < window_size cfg + B) (windows (run cfg es w).2)) as H.
  { clear es. intros es. induction es as [|e es IH]; intros w Hc Hq Hd; [constructor|].
    rewrite delivered_cons in Hd. apply Forall_app in Hd as [Hd1 Hd2].
    rewrite run_cons_snd.
    assert (len (audio_chunk (step cfg e w).1) < window_size cfg + B
            /\ Forall (fun d => len d <= B) (audio_q (step cfg e w).1)
            /\ Forall (fun a => len a < window_size cfg + B) (windows (step cfg e w).2))
      as (Hc1 & Hq1 & Hw1).
    { destruct e as [indata|whisper now|inp| |c now| | ];
        [cbn [step fst snd] | cbn [step fst snd]
         | destruct (tick_effects (ScribeRerun inp) w eq_refl) as (c' & now' & ->);
           cbn [step]
         | cbn [step fst snd]
         | destruct (tick_effects (CliIteration c now) w eq_refl) as (c' & now' & ->);
           cbn [step]
         | cbn [step fst snd] | cbn [step fst snd] ].
      - simpl. split; [done|]. split; [|constructor].
        apply Forall_app. split; [done|]. simpl in Hd1. done.
      - unfold worker_step.
        destruct (Z.ltb_spec (len (audio_chunk w)) (window_size cfg)).
        + destruct (audio_q w) as [|data q] eqn:Eq; simpl.
          * rewrite Eq. split; [done|]. split; constructor.
          * apply Forall_cons in Hq as [Hdata Hq].
            rewrite len_app. split; [lia|]. split; [done|constructor].
        + simpl. split; [unfold len; simpl; lia|]. split; [done|].
          by repeat constructor.
      - rewrite scribe_rerun_world. cbv zeta.
        rewrite summary_check_windows.
        split; [by destruct (save_clicked inp)|].
        split; [by destruct (save_clicked inp)|constructor].
      - simpl. split; [done|]. split; [done|constructor].
      - rewrite cli_iteration_world.
        rewrite summary_check_windows. split; [done|]. split; [done|constructor].
      - simpl. split; [done|]. split; [done|constructor].
      - unfold cli_finally, save_data. cbn [ui set_ui transcript_text].
        split; [by destruct (transcript_text (ui w))|].
        split; [by destruct (transcript_text (ui w))|constructor]. }
    specialize (IH (step cfg e w).1 Hc1 Hq1 Hd2).
    rewrite windows_app. apply Forall_app. by split. }
  intros Hd. apply H; [|constructor|done].
  unfold len. simpl. lia.
Qed.

(** X5. The audio buffer stays aligned with the transcript log: they hold
    the same number of entries, every buffered entry is a window of at
    least the window size, and so the audio a save writes holds at least
    one window size of samples per transcript line. *)
Theorem audio_buffer_matches_transcript es :
  let w := (run cfg es initial_world).1 in
  length (transcript_text (ui w)) = length (audio_buffer (ui w))
  /\ Forall (fun raw_audio => window_size cfg <= len raw_audio) (audio_buffer (ui w))
  /\ window_size cfg * len (transcript_text (ui w)) <= len (concat (audio_buffer (ui w))).
Proof.
  set (ok := fun a : list sample => window_size cfg <= len a).
  assert (forall es w,
            length (transcript_text (ui w)) = length (audio_buffer (ui w)) ->
            Forall ok (audio_buffer (ui w)) -> Forall ok (map snd (result_q w)) ->
            length (transcript_text (ui (run cfg es w).1))
              = length (audio_buffer (ui (run cfg es w).1))
            /\ Forall ok (audio_buffer (ui (run cfg es w).1))) as H.
  { clear es. intros es. induction es as [|e es IH]; intros w Hl Ha Hq; [done|].
    rewrite run_cons_fst.
    assert (length (transcript_text (ui (step cfg e w).1))
              = length (audio_buffer (ui (step cfg e w).1))
            /\ Forall ok (audio_buffer (ui (step cfg e w).1))
            /\ Forall ok (map snd (result_q (step cfg e w).1))) as (Hl1 & Ha1 & Hq1).
    { destruct (step_log_and_cursor cfg e w) as [-> _].
      rewrite step_audio_buffer, step_result_q, drain_transcript.
      destruct e as [indata|whisper now|inp| |c now| | ]; cbn [is_tick]; try done.
      - split; [done|]. split; [done|].
        destruct (Z.ltb_spec (len (audio_chunk w)) (window_size cfg)); [done|].
        rewrite map_app. apply Forall_app. split; [done|].
        destruct whisper as [raw|err]; simpl; [|constructor].
        destruct (strip raw); simpl; by repeat constructor.
      - rewrite !length_app, !length_map, Hl. split; [done|].
        split; [by apply Forall_app|constructor].
      - rewrite !length_app, !length_map, Hl. split; [done|].
        split; [by apply Forall_app|constructor]. }
    exact (IH (step cfg e w).1 Hl1 Ha1 Hq1). }
  intros w. destruct (H es initial_world) as [Hl Ha]; [done|constructor|constructor|].
  fold w in Hl, Ha. split; [done|]. split; [done|].
  assert (len (transcript_text (ui w)) = len (audio_buffer (ui w))) as ->
    by (unfold len; by rewrite Hl).
  clear Hl. induction Ha as [|a l Ha _ IH].
  - unfold len. simpl. lia.
  - rewrite len_concat_cons. unfold ok in Ha.
    replace (len (a :: l)) with (1 + len l) by (unfold len; simpl length; lia).
    lia.
Qed.

(** X6. Nothing is ever removed from or changed in the logs: along any
    schedule from any state, the transcript log, the audio buffer and the
    summary log each keep what they held as a prefix. *)
Theorem logs_only_grow es w :
  transcript_text (ui w) `prefix_of` transcript_text (ui (run cfg es w).1)
  /\ audio_buffer (ui w) `prefix_of` audio_buffer (ui (run cfg es w).1)
  /\ summary_log (ui w) `prefix_of` summary_log (ui (run cfg es w).1).
Proof.
  revert w. induction es as [|e es IH]; intros w; [done|].
  rewrite run_cons_fst.
  assert (transcript_text (ui w) `prefix_of` transcript_text (ui (step cfg e w).1)
          /\ audio_buffer (ui w) `prefix_of` audio_buffer (ui (step cfg e w).1)) as [Ht Ha].
  { destruct (step_log_and_cursor cfg e w) as [-> _].
    rewrite step_audio_buffer, drain_transcript.
    destruct (is_tick e); split; try done; by apply prefix_app_r. }
  pose proof (step_summary_log e w) as Hs.
  destruct (IH (step cfg e w).1) as (IHt & IHa & IHs).
  repeat split; by etrans.
Qed.

(** X7. With a positive summary interval, a tick that directly follows a
    tick makes no summarisation call: the same lines are never summarised
    twice, and a summary waits for new lines. *)
Theorem no_second_summary_without_new_lines e1 e2 w :
  0 < SUMMARY_INTERVAL cfg ->
  is_tick e1 = true ->
  is_tick e2 = true ->
  (step cfg e2 (step cfg e1 w).1).2 = [].
Proof.
  intros Hpos H1 H2.
  destruct (tick_effects e2 (step cfg e1 w).1 H2) as (c & now & ->).
  rewrite summary_check_idle; [done|].
  unfold check_fires. rewrite drain_idx, drain_transcript.
  pose proof (step_result_q cfg e1 w) as Hq.
  destruct (step_log_and_cursor cfg e1 w) as [Ht Hi].
  rewrite Ht, Hi, H1. cbn [andb].
  replace (result_q (step cfg e1 w).1) with (@nil (str * list sample))
    by (rewrite Hq; by destruct e1).
  simpl map. rewrite app_nil_r.
  apply Z.leb_gt.
  destruct (check_fires cfg (ui (drain w))) eqn:E; [lia|].
  unfold check_fires in E. rewrite drain_idx in E.
  by apply Z.leb_gt in E.
Qed.

(** X8. When the check fires in a reachable state, the lines summarised are
    all the lines from the boundary on, at least [SUMMARY_INTERVAL] of
    them, and the call made is the one for their cleaned, space-joined
    text. *)
Theorem summary_covers_all_new_lines es e :
  let s := ui (drain (run cfg es initial_world).1) in
  let recent_lines := drop (Z.to_nat (last_summary_idx s)) (transcript_text s) in
  is_tick e = true ->
  check_fires cfg s = true ->
  SUMMARY_INTERVAL cfg <= len recent_lines
  /\ len recent_lines = len (transcript_text s) - last_summary_idx s
  /\ (step cfg e (run cfg es initial_world).1).2 =
       [OllamaChat OLLAMA_MODEL
          (summary_prompt (join (lit " ") (map clean_line recent_lines)))].
Proof.
  intros s recent_lines Htick Hfires.
  assert (boundary_ok (run cfg es initial_world).1) as Hok
    by apply run_boundary_ok, initial_boundary_ok.
  assert (0 <= last_summary_idx s <= len (transcript_text s)) as Hb.
  { unfold s. rewrite drain_idx, drain_transcript, len_app.
    pose proof (len_nonneg (map fst (result_q (run cfg es initial_world).1))).
    unfold boundary_ok in Hok. lia. }
  assert (len recent_lines = len (transcript_text s) - last_summary_idx s) as Hlen.
  { unfold recent_lines, len. rewrite length_drop. unfold len in Hb. lia. }
  split; [|split; [done|]].
  - rewrite Hlen. unfold check_fires in Hfires. by apply Z.leb_le in Hfires.
  - destruct (tick_effects e (run cfg es initial_world).1 Htick) as (c & now & ->).
    fold s. rewrite summary_check_fired by done. cbn [snd].
    unfold clean_text, slice_from.
    replace (last_summary_idx s <? 0) with false by (symmetry; apply Z.ltb_ge; lia).
    done.
Qed.

(** X9. In [scribe.py] the recording flag is set exactly while a started
    stream is stored: a start that fails leaves the session idle, and a
    stop closes the stream. *)
Theorem scribe_recording_iff_stream_started es :
  forallb is_scribe_event es = true ->
  recording (ui (run cfg es initial_world).1) = true
  <-> stream (ui (run cfg es initial_world).1) = Some true.
Proof.
  assert (forall es w,
            forallb is_scribe_event es = true ->
            (recording (ui w) = true <-> stream (ui w) = Some true) ->
            (recording (ui (run cfg es w).1) = true
             <-> stream (ui (run cfg es w).1) = Some true)) as H.
  { clear es. intros es. induction es as [|e es IH]; intros w Hall Hw; [done|].
    cbn [forallb] in Hall. apply andb_true_iff in Hall as [He Hes].
    rewrite run_cons_fst. apply IH; [done|].
    destruct e as [indata|whisper now|inp| |c now| | ]; try discriminate; cbn [step fst].
    - done.
    - by rewrite worker_step_ui.
    - rewrite scribe_rerun_ui. cbv zeta.
      destruct (summary_check_frame (chat inp) (clock inp) (ui (drain w))) as (Hr & _ & Hs).
      destruct (drain_results_frame (result_q w) (ui w)) as (Hr' & _ & _ & Hs').
      unfold drain in Hr at 2, Hs at 2. cbn [ui] in Hr, Hs.
      rewrite Hr' in Hr. rewrite Hs' in Hs.
      destruct (toggle_clicked inp); [|by rewrite Hr, Hs].
      unfold toggle_button. rewrite Hr, Hs.
      destruct (recording (ui w)) eqn:Er; cbn [negb].
      + cbn [recording stream]. destruct (stream (ui w)); split; discriminate.
      + destruct (start_stream inp); cbn [recording stream]; [done|].
        split; [discriminate|]. intros Hst. apply Hw in Hst. discriminate. }
  intros Hall. apply H; [done|]. split; discriminate.
Qed.

End PipelineExtras.

Lemma short_window_never_transcribed_witness :
  let w := {| ui := initial_session; audio_q := [[4; 5]; [6]];
              result_q := []; audio_chunk := [1; 2; 3]; files := ∅ |} in
  let es := [WorkerStep (Returns (lit "hi")) (lit "00:00:05");
             CliIteration (Returns (lit "Mood: calm")) (lit "10:30");
             WorkerStep (Returns (lit "hi")) (lit "00:00:06");
             WorkerStep (Returns (lit "hi")) (lit "00:00:07")] in
  len (audio_chunk w ++ concat (audio_q w)) < window_size cli_config
  /\ windows (run cli_config es w).2 = [].
Proof.
  intros w es.
  assert (len (audio_chunk w ++ concat (audio_q w)) < window_size cli_config) as H
    by reflexivity.
  split; [exact H|].
  exact (short_window_never_transcribed cli_config w es H eq_refl).
Defined.

Lemma enough_samples_get_transcribed_witness :
  let w := {| ui := initial_session;
              audio_q := [replicate (Z.to_nat 40000) 0; replicate (Z.to_nat 40000) 0];
              result_q := []; audio_chunk := []; files := ∅ |} in
  let es := replicate 3 (WorkerStep (Returns (lit "hi")) (lit "00:00:05")) in
  window_size cli_config <= len (audio_chunk w ++ concat (audio_q w))
  /\ windows (run cli_config es w).2 <> [].
Proof.
  intros w es.
  assert (window_size cli_config <= len (audio_chunk w ++ concat (audio_q w))) as H
    by (vm_compute; discriminate).
  split; [exact H|].
  apply (enough_samples_get_transcribed cli_config es w H); [reflexivity|].
  simpl. lia.
Defined.

Lemma window_overshoot_bounded_witness :
  let buf := replicate (Z.to_nat 60000) 0 in
  let es := [AudioCallback buf; AudioCallback buf;
             WorkerStep (Returns (lit "hi")) (lit "00:00:05");
             WorkerStep (Returns (lit "hi")) (lit "00:00:05");
             WorkerStep (Returns (lit "hi")) (lit "00:00:05")] in
  0 < window_size scribe_config
  /\ Forall (fun np_audio => len np_audio < window_size scribe_config + 60000)
       (windows (run scribe_config es initial_world).2).
Proof.
  intros buf es.
  assert (0 < window_size scribe_config) as H0 by reflexivity.
  split; [exact H0|].
  apply (window_overshoot_bounded scribe_config es 60000 H0); [discriminate|].
  repeat constructor; vm_compute; discriminate.
Defined.

Lemma no_second_summary_without_new_lines_witness :
  let e := CliIteration (Returns (lit "Mood: calm")) (lit "10:30") in
  let w := {| ui := initial_session; audio_q := [];
              result_q := replicate 15 (format_line (lit "00:00:01") (lit "hi"), [0]);
              audio_chunk := []; files := ∅ |} in
  (step cli_config e w).2 <> []
  /\ (step cli_config e (step cli_config e w).1).2 = [].
Proof.
  intros e w. split; [by vm_compute|].
  by apply (no_second_summary_without_new_lines cli_config e e w).
Defined.

Lemma summary_covers_all_new_lines_witness :
  let whisper := WorkerStep (Returns (lit " hi ")) (lit "00:00:05") in
  let es := [AudioCallback [1; 2]; whisper; whisper;
             AudioCallback [3; 4]; whisper; whisper] in
  let cfg := {| SAMPLE_RATE := 2; CHUNK_DURATION := 1; SUMMARY_INTERVAL := 2 |} in
  let e := CliIteration (Returns (lit "Mood: calm")) (lit "10:30") in
  (step cfg e (run cfg es (@initial_world Z)).1).2 =
    [OllamaChat OLLAMA_MODEL (summary_prompt (lit "hi hi"))].
Proof.
  intros whisper es cfg e.
  exact (proj2 (proj2 (summary_covers_all_new_lines cfg es e eq_refl eq_refl))).
Defined.

Lemma scribe_recording_iff_stream_started_witness :
  let click start :=
    ScribeRerun {| chat := Returns (lit "Mood: calm"); clock := lit "10:30";
                   toggle_clicked := true; start_stream := start;
                   save_clicked := false |} in
  let es := [click (Raises (lit "no device")); click (Returns tt);
             AudioCallback [1; 2]; click (Returns tt); click (Returns tt)] in
  recording (ui (run scribe_config es (@initial_world Z)).1) = true
  /\ stream (ui (run scribe_config es (@initial_world Z)).1) = Some true.
Proof.
  intros click es.
  assert (recording (ui (run scribe_config es (@initial_world Z)).1) = true) as H
    by reflexivity.
  split; [exact H|].
  by apply (scribe_recording_iff_stream_started scribe_config es).
Defined.

(** ** Further properties of the text handling and the save action *)

Lemma contains_single_false (c : char) (s : str) :
  contains [c] s = false -> Forall (fun d => d <> c) s.
Proof.
  induction s as [|d s IH]; intros H; [constructor|].
  cbn [contains startswith] in H. apply orb_false_iff in H as [H1 H2].
  constructor; [|by apply IH].
  rewrite andb_true_r in H1. apply N.eqb_neq in H1. congruence.
Qed.

Lemma split_go_nl_line (x cur rest : str) :
  Forall (fun d => d <> 10%N) x ->
  split_go nl 0 cur (x ++ 10%N :: rest) = (rev cur ++ x) :: split_go nl 0 [] rest.
Proof.
  revert cur. induction x as [|c x IH]; intros cur H.
  - simpl. by rewrite app_nil_r.
  - apply Forall_cons in H as [Hc Hx].
    cbn [app split_go startswith nl].
    replace (10 =? c)%N with false by (symmetry; apply N.eqb_neq; congruence).
    cbn [andb]. rewrite IH by done. simpl. by rewrite <- app_assoc.
Qed.

Lemma split_join_nl (lines : list str) :
  lines <> [] ->
  forallb (fun line => negb (contains nl line)) lines = true ->
  split nl (join nl lines) = lines.
Proof.
  intros Hne Hall. unfold split.
  induction lines as [|x lines IH]; [done|].
  cbn [forallb] in Hall. apply andb_true_iff in Hall as [Hx Hall].
  apply negb_true_iff in Hx.
  destruct lines as [|y lines].
  - simpl. by rewrite split_go_plain.
  - change (join nl (x :: y :: lines)) with (x ++ 10%N :: join nl (y :: lines)).
    rewrite split_go_nl_line by by apply contains_single_false.
    rewrite IH by done. done.
Qed.

(** X10. What the summary check cleans out of a line the background thread
    formatted is the transcribed text as stripped, provided the clock
    string holds no closing bracket and the text does not hold the
    separator that [split] looks for. *)
Theorem cleaned_line_is_transcribed_text (sample : Type) (raw now line : str)
    (np_audio : list sample) :
  transcribe_window (Returns raw) now np_audio = [(line, np_audio)] ->
  Forall (fun c => c <> 93%N) now ->
  contains (lit "]** ") (strip raw) = false ->
  clean_line line = strip raw /\ strip raw <> [].
Proof.
  intros Hw Hnow Htext. rewrite transcribe_window_returns in Hw.
  destruct (forallb is_space raw) eqn:E; [discriminate|].
  injection Hw as <-. split; [by apply clean_line_of_plain_text|].
  intros Hs. apply strip_nil in Hs. congruence.
Qed.

Lemma cleaned_line_is_transcribed_text_witness :
  let raw := lit "  hello [world]  " in
  let now := lit "09:15:42" in
  clean_line (format_line now (lit "hello [world]")) = strip raw.
Proof.
  intros raw now.
  refine (proj1 (cleaned_line_is_transcribed_text Z raw now
                   (format_line now (lit "hello [world]")) [0] eq_refl _ eq_refl)).
  repeat constructor; discriminate.
Defined.

(** X11. The transcript file the save button writes has one line per
    transcript entry: when the log is not empty and no entry holds a line
    feed, splitting the file at line feeds gives back the log. *)
Theorem saved_transcript_splits_into_lines (sample : Type) (cfg : config)
    (w : world sample) :
  transcript_text (ui w) <> [] ->
  forallb (fun line => negb (contains nl line)) (transcript_text (ui w)) = true ->
  exists content,
    files (save_button cfg w) !! TRANSCRIPT_FILE = Some (TextFile content)
    /\ files (save_data cfg w) !! TRANSCRIPT_FILE = Some (TextFile content)
    /\ split nl content = transcript_text (ui w).
Proof.
  intros Hne Hall. exists (join nl (transcript_text (ui w))).
  split; [|split].
  - unfold save_button. simpl. apply lookup_insert_eq.
  - unfold save_data. destruct (transcript_text (ui w)); [done|].
    simpl. apply lookup_insert_eq.
  - by apply split_join_nl.
Qed.

Lemma saved_transcript_splits_into_lines_witness :
  let lines := [format_line (lit "09:15:42") (lit "hello");
                format_line (lit "09:15:49") (lit "world")] in
  let w := {| ui := session_with_lines Z lines; audio_q := []; result_q := [];
              audio_chunk := []; files := ∅ |} in
  exists content,
    files (save_button scribe_config w) !! TRANSCRIPT_FILE = Some (TextFile content)
    /\ files (save_data scribe_config w) !! TRANSCRIPT_FILE = Some (TextFile content)
    /\ split nl content = lines.
Proof.
  intros lines w.
  apply (saved_transcript_splits_into_lines Z scribe_config w); [discriminate|reflexivity].
Defined.

(** X12. Saving touches no file but [meeting_audio.wav] and
    [meeting_transcript.txt], in either front end. *)
Theorem save_touches_only_its_files (sample : Type) (cfg : config)
    (w : world sample) (f : string) :
  f <> AUDIO_FILE ->
  f <> TRANSCRIPT_FILE ->
  files (save_button cfg w) !! f = files w !! f
  /\ files (save_data cfg w) !! f = files w !! f.
Proof.
  intros Ha Ht.
  assert (save_audio cfg (ui w) (files w) !! f = files w !! f) as Hsa.
  { unfold save_audio. destruct (audio_buffer (ui w)); [done|].
    by rewrite lookup_insert_ne. }
  unfold save_button, save_data. split.
  - simpl. by rewrite lookup_insert_ne.
  - destruct (transcript_text (ui w)); simpl; [done|]. by rewrite lookup_insert_ne.
Qed.

Lemma save_touches_only_its_files_witness :
  let notes : file Z := TextFile (lit "agenda") in
  let w := {| ui := session_with_lines Z [format_line (lit "09:15:42") (lit "hello")];
              audio_q := []; result_q := []; audio_chunk := [];
              files := {[ "notes.txt"%string := notes ]} |} in
  files (save_button scribe_config w) !! "notes.txt"%string = Some notes
  /\ files (save_data cli_config w) !! "notes.txt"%string = Some notes.
Proof.
  intros notes w.
  destruct (save_touches_only_its_files Z scribe_config w "notes.txt"%string) as [H1 _];
    [discriminate|discriminate|].
  destruct (save_touches_only_its_files Z cli_config w "notes.txt"%string) as [_ H2];
    [discriminate|discriminate|].
  rewrite H1, H2. split; apply lookup_singleton_eq.
Defined.

(** X13. Saving overwrites rather than appends: a second save of the same
    state changes nothing, files included, in either front end. *)
Theorem save_twice_is_save_once (sample : Type) (cfg : config) (w : world sample) :
  save_button cfg (save_button cfg w) = save_button cfg w
  /\ save_data cfg (save_data cfg w) = save_data cfg w.
Proof.
  assert (forall (fs : gmap string (file sample)) a t,
            <[TRANSCRIPT_FILE:=t]> (<[AUDIO_FILE:=a]> (<[TRANSCRIPT_FILE:=t]> (<[AUDIO_FILE:=a]> fs)))
            = <[TRANSCRIPT_FILE:=t]> (<[AUDIO_FILE:=a]> fs)) as Hboth.
  { intros fs a t. apply map_eq. intros i.
    destruct (decide (i = TRANSCRIPT_FILE)) as [->|Ht].
    - by rewrite !lookup_insert_eq.
    - rewrite !(lookup_insert_ne _ TRANSCRIPT_FILE) by done.
      destruct (decide (i = AUDIO_FILE)) as [->|Ha].
      + by rewrite !lookup_insert_eq.
      + by rewrite !lookup_insert_ne. }
  unfold save_button, save_data, save_audio, set_files. split.
  - cbn [ui files audio_q result_q audio_chunk].
    destruct (audio_buffer (ui w)).
    + by rewrite insert_insert_eq.
    + by rewrite Hboth.
  - destruct (transcript_text (ui w)) eqn:Et, (audio_buffer (ui w)) eqn:Ea;
      cbn [ui files audio_q result_q audio_chunk]; rewrite ?Et, ?Ea;
      cbn [ui files audio_q result_q audio_chunk];
      rewrite ?insert_insert_eq, ?Hboth; done.
Qed.

(** ** Further properties of the device selection *)

Section SelectionExtras.

Variable py_int : str -> option Z.


Lemma py_index_in_range {A : Type} (l : list A) (i : Z) :
  - len l <= i < len l ->
  py_index l i = l !! Z.to_nat (i mod len l).
Proof.
  intros H. unfold py_index.
  destruct (Z.ltb_spec i 0).
  - destruct (Z.ltb_spec (len l + i) 0); [lia|].
    replace (i mod len l) with (len l + i); [done|].
    apply (Z.mod_unique i (len l) (-1)); lia.
  - rewrite Z.mod_small by lia. done.
Qed.

Lemma py_index_out_of_range {A : Type} (l : list A) (i : Z) :
  i < - len l \/ len l <= i -> py_index l i = None.
Proof.
  intros H. unfold py_index.
  destruct (Z.ltb_spec i 0).
  - destruct (Z.ltb_spec (len l + i) 0); [done|]. lia.
  - apply lookup_ge_None_2. unfold len in H. lia.
Qed.


(** X15. A typed number is used the way Python indexes a list: from
    [-n] to [n - 1], with [n] input devices, it selects the device at
    that number modulo [n], so a negative number counts from the end. *)
Theorem typed_number_selects_modulo (device_list : list device) (choice : str) (i : Z) :
  choice <> [] ->
  py_int choice = Some i ->
  - len (input_devices device_list) <= i < len (input_devices device_list) ->
  exists d,
    input_devices device_list !! Z.to_nat (i mod len (input_devices device_list)) = Some d
    /\ select_input_device py_int (Returns device_list) (Typed choice) = Device (index d).
Proof.
  intros Hc Hi Hr. unfold select_input_device.
  pose proof (py_index_in_range (input_devices device_list) i Hr) as Hp.
  destruct (input_devices device_list) as [|d0 ds] eqn:Ed.
  { unfold len in Hr. simpl in Hr. lia. }
  destruct choice as [|c choice]; [done|]. rewrite Hi, Hp.
  destruct ((d0 :: ds) !! Z.to_nat (i mod len (d0 :: ds))) as [d|] eqn:El.
  - by exists d.
  - apply lookup_ge_None_1 in El.
    pose proof (Z.mod_pos_bound i (len (d0 :: ds))) as Hm.
    unfold len in *. simpl length in *. lia.
Qed.

(** X16. A typed answer that [int] rejects, or a number outside [-n] to
    [n - 1], makes [select_input_device] fall back to the system default
    input device instead of failing. *)
Theorem bad_answer_falls_back_to_default (device_list : list device) (choice : str) :
  input_devices device_list <> [] ->
  choice <> [] ->
  match py_int choice with
  | None => True
  | Some i =>
      i < - len (input_devices device_list) \/ len (input_devices device_list) <= i
  end ->
  select_input_device py_int (Returns device_list) (Typed choice) = DefaultInput.
Proof.
  intros Hd Hc Hi. unfold select_input_device.
  destruct (input_devices device_list) as [|d0 ds] eqn:Ed; [done|].
  destruct choice as [|c choice]; [done|].
  destruct (py_int (c :: choice)) as [i|]; [|done].
  by rewrite py_index_out_of_range.
Qed.


End SelectionExtras.

(** X18. The index [scribe.py] passes to its select box is always a valid
    position of the list of input names when that list is not empty. *)
Theorem scribe_default_idx_in_range (names : list str) :
  names <> [] ->
  0 <= scribe_default_idx names < len names.
Proof.
  intros Hne. unfold scribe_default_idx.
  pose proof (scan_marker_find (fun n : str => n) names 0 0) as H.
  rewrite map_id in H.
  destruct (List.find (fun x => contains MARKER x) names) as [n|].
  - destruct H as (k & -> & Hk). apply lookup_lt_Some in Hk. unfold len. lia.
  - rewrite H. destruct names; [done|]. unfold len. simpl length. lia.
Qed.

Lemma typed_number_selects_modulo_witness :
  let py_int : str -> option Z := fun s =>
    match s with
    | [c] => Some (Z.of_N c - 48)
    | [45%N; c] => Some (- (Z.of_N c - 48))
    | _ => None
    end in
  let devices :=
    [ {| name := lit "MacBook Pro Speakers"; max_input_channels := 0; index := 0 |};
      {| name := lit "MacBook Pro Microphone"; max_input_channels := 1; index := 1 |};
      {| name := lit "BlackHole 2ch"; max_input_channels := 2; index := 2 |} ] in
  exists d,
    input_devices devices !! Z.to_nat (-1 mod len (input_devices devices)) = Some d
    /\ select_input_device py_int (Returns devices) (Typed (lit "-1")) = Device (index d).
Proof.
  intros py_int devices.
  apply (typed_number_selects_modulo py_int devices (lit "-1") (-1));
    [discriminate|reflexivity|by vm_compute].
Defined.

Lemma bad_answer_falls_back_to_default_witness :
  let py_int : str -> option Z := fun s =>
    match s with
    | [c] => Some (Z.of_N c - 48)
    | [45%N; c] => Some (- (Z.of_N c - 48))
    | _ => None
    end in
  let devices :=
    [ {| name := lit "MacBook Pro Speakers"; max_input_channels := 0; index := 0 |};
      {| name := lit "MacBook Pro Microphone"; max_input_channels := 1; index := 1 |};
      {| name := lit "BlackHole 2ch"; max_input_channels := 2; index := 2 |} ] in
  select_input_device py_int (Returns devices) (Typed (lit "7")) = DefaultInput
  /\ select_input_device py_int (Returns devices) (Typed (lit "mic")) = DefaultInput.
Proof.
  intros py_int devices. split.
  - apply (bad_answer_falls_back_to_default py_int devices (lit "7"));
      [discriminate|discriminate|right; by vm_compute].
  - apply (bad_answer_falls_back_to_default py_int devices (lit "mic"));
      [discriminate|discriminate|exact I].
Defined.

Lemma scribe_default_idx_in_range_witness :
  let names := [lit "MacBook Pro Microphone"; lit "BlackHole 2ch"] in
  scribe_default_idx names = 1
  /\ 0 <= scribe_default_idx names < len names.
Proof.
  intros names. split; [reflexivity|].
  apply (scribe_default_idx_in_range names). discriminate.
Defined.

(** ** Further properties of the batch tool *)

Lemma slice_chunk {A : Type} (l : list A) (i k : Z) :
  0 <= i <= len l -> 0 <= k ->
  slice l i (i + k) = take (Z.to_nat k) (drop (Z.to_nat i) l).
Proof.
  intros Hi Hk. unfold slice.
  replace (i <? 0) with false by (symmetry; apply Z.ltb_ge; lia).
  replace (i + k <? 0) with false by (symmetry; apply Z.ltb_ge; lia).
  rewrite (Z.min_l i) by lia.
  destruct (Z.le_gt_cases (i + k) (len l)).
  - rewrite Z.min_l by lia. f_equal. lia.
  - rewrite Z.min_r by lia.
    rewrite !take_ge; [done| |]; rewrite length_drop; unfold len in *; lia.
Qed.

Lemma concat_take_drop {A : Type} (l : list A) (k n : nat) :
  concat (map (fun j => take k (drop (j * k) l)) (seq 0 n)) = take (n * k) l.
Proof.
  induction n as [|n IH]; [done|].
  rewrite seq_S, map_app, concat_app, IH. simpl.
  rewrite app_nil_r, take_take_drop. f_equal. lia.
Qed.

Lemma chunk_count_bounds (n interval : Z) :
  0 <= n -> 0 < interval ->
  let q := (n + interval - 1) / interval in
  0 <= q /\ n <= q * interval /\ (0 < q -> (q - 1) * interval < n).
Proof.
  intros Hn Hi q.
  pose proof (Z.mul_div_le (n + interval - 1) interval Hi) as H1.
  pose proof (Z.mul_succ_div_gt (n + interval - 1) interval Hi) as H2.
  fold q in H1, H2.
  assert (0 <= q) by (apply Z.div_pos; lia).
  split; [done|]. split; nia.
Qed.

(** X19. With a positive interval the chunks of the batch tool cut the
    cleaned lines into consecutive pieces: put together they are the
    cleaned lines again, and every chunk holds at least one and at most
    [interval] lines. *)
Theorem tester_chunks_partition (interval : Z) (clean_lines : list str) :
  0 < interval ->
  exists chunks,
    tester_chunks interval clean_lines = Some chunks
    /\ concat (map snd chunks) = clean_lines
    /\ Forall (fun c => 0 < len c.2 <= interval) chunks.
Proof.
  intros Hpos. unfold tester_chunks, range_from_zero.
  replace (interval =? 0) with false by (symmetry; apply Z.eqb_neq; lia).
  replace (0 <? interval) with true by (symmetry; apply Z.ltb_lt; lia).
  destruct (chunk_count_bounds (len clean_lines) interval (len_nonneg _) Hpos)
    as (Hq0 & Hcover & Hlast).
  set (q := (len clean_lines + interval - 1) / interval) in *.
  set (k := Z.to_nat interval).
  eexists. split; [reflexivity|].
  assert (forall j, In j (seq 0 (Z.to_nat q)) ->
            slice clean_lines (Z.of_nat j * interval) (Z.of_nat j * interval + interval)
            = take k (drop (j * k) clean_lines)
            /\ (j * k < length clean_lines)%nat) as Hchunk.
  { intros j Hj. apply in_seq in Hj.
    assert (Z.of_nat j * interval < len clean_lines) as Hlt by nia.
    split; [|unfold len in Hlt; unfold k; nia].
    rewrite slice_chunk by nia. unfold k. do 2 f_equal. nia. }
  split.
  - rewrite !map_map. cbn [snd].
    rewrite (map_ext_in _ (fun j => take k (drop (j * k) clean_lines)))
      by (intros j Hj; apply Hchunk, Hj).
    rewrite concat_take_drop. apply take_ge.
    unfold len in Hcover. unfold k. nia.
  - rewrite map_map. apply Forall_forall. intros c Hc.
    apply list_elem_of_In, in_map_iff in Hc as (j & <- & Hj).
    destruct (Hchunk j Hj) as [-> Hlt]. cbn [snd].
    unfold len. rewrite length_take, length_drop. unfold k. lia.
Qed.

Lemma tester_chunks_partition_witness :
  let clean_lines := replicate 60 (lit "ok") in
  exists chunks,
    tester_chunks TESTER_SUMMARY_INTERVAL clean_lines = Some chunks
    /\ concat (map snd chunks) = clean_lines
    /\ Forall (fun c => 0 < len c.2 <= TESTER_SUMMARY_INTERVAL) chunks.
Proof.
  intros clean_lines.
  apply (tester_chunks_partition TESTER_SUMMARY_INTERVAL clean_lines). reflexivity.
Defined.

Lemma startswith_app_char (p s : str) (c : char) :
  Forall (fun a => a <> c) p ->
  startswith p (s ++ [c]) = true -> startswith p s = true.
Proof.
  revert s. induction p as [|a p IH]; intros s Hp H; [done|].
  apply Forall_cons in Hp as [Ha Hp].
  destruct s as [|b s]; cbn [app startswith] in *.
  - apply andb_true_iff in H as [H _]. apply N.eqb_eq in H. congruence.
  - apply andb_true_iff in H as [H1 H2]. rewrite H1. by apply IH.
Qed.

Lemma contains_app_char (p s : str) (c : char) :
  p <> [] ->
  Forall (fun a => a <> c) p ->
  contains p s = false -> contains p (s ++ [c]) = false.
Proof.
  intros Hne Hp. induction s as [|b s IH]; intros H.
  - destruct p as [|a p]; [done|]. apply Forall_cons in Hp as [Ha _].
    cbn [app contains startswith].
    replace (a =? c)%N with false by (symmetry; apply N.eqb_neq; congruence).
    done.
  - cbn [contains] in H. apply orb_false_iff in H as [H1 H2].
    cbn [app contains]. rewrite IH by done. rewrite orb_false_r.
    destruct (startswith p (b :: s ++ [c])) eqn:E; [|done].
    apply (startswith_app_char p (b :: s) c Hp) in E. congruence.
Qed.

Lemma startswith_app (p s : str) : startswith p (p ++ s) = true.
Proof. induction p as [|a p IH]; [done|]. simpl. by rewrite N.eqb_refl. Qed.

Lemma contains_app (p a b : str) : contains p (a ++ p ++ b) = true.
Proof.
  induction a as [|c a IH].
  - cbn [app]. pose proof (startswith_app p b) as H.
    destruct (p ++ b); cbn [contains]; by rewrite H.
  - cbn [app contains]. rewrite IH. apply orb_true_r.
Qed.

Lemma strip_app_nl (s : str) : strip (s ++ nl) = strip s.
Proof. unfold strip, rstrip, nl. by rewrite rev_unit. Qed.

(** X20. The batch tool reads the texts back out of a transcript the
    front ends wrote: for lines formatted from a clock string without a
    closing bracket and an already stripped text that does not hold the
    separator, with or without their line feed, the cleaned lines are
    exactly the texts. *)
Theorem tester_reads_back_saved_lines (entries : list (str * str * bool)) :
  Forall (fun entry =>
            Forall (fun c => c <> 93%N) entry.1.1
            /\ contains (lit "]** ") entry.1.2 = false
            /\ strip entry.1.2 = entry.1.2) entries ->
  tester_clean_lines (map file_line entries) = map (fun entry => entry.1.2) entries.
Proof.
  unfold tester_clean_lines.
  induction 1 as [|[[timestamp text] eol] entries (Hts & Hsep & Hstrip) _ IH]; [done|].
  cbn [fst snd] in *. cbn [map file_line List.filter].
  assert (format_line timestamp text ++ (if eol then nl else [])
          = format_line timestamp (text ++ if eol then nl else [])) as Hline
    by (unfold format_line; by rewrite <- !app_assoc).
  rewrite Hline.
  replace (contains (lit "]** ") (format_line timestamp (text ++ (if eol then nl else []))))
    with true
    by (symmetry; unfold format_line; rewrite app_assoc; apply contains_app).
  cbn [map]. rewrite IH. f_equal.
  rewrite clean_line_of_plain_text; [|done|].
  - destruct eol; [by rewrite strip_app_nl|by rewrite app_nil_r].
  - destruct eol; [|by rewrite app_nil_r].
    apply contains_app_char; [discriminate| |done].
    repeat constructor; discriminate.
Qed.

Lemma tester_reads_back_saved_lines_witness :
  let entries := [(lit "09:15:42", lit "hello there", true);
                  (lit "09:15:49", lit "see [1] below", false)] in
  tester_clean_lines (map file_line entries) = [lit "hello there"; lit "see [1] below"].
Proof.
  intros entries.
  apply (tester_reads_back_saved_lines entries).
  repeat constructor; discriminate.
Defined.

(** ** Further properties: trimmed text, summary entries, batching *)

Lemma lstrip_suffix (s : str) : exists sp, s = sp ++ lstrip s.
Proof.
  induction s as [|c s [sp IH]]; [by exists []|].
  simpl. destruct (is_space c).
  - exists (c :: sp). simpl. by rewrite <- IH.
  - by exists [].
Qed.

Lemma lstrip_fixed (s : str) :
  (forall c r, s = c :: r -> is_space c = false) -> lstrip s = s.
Proof.
  destruct s as [|c s]; [done|]. intros H. simpl. by rewrite (H c s eq_refl).
Qed.

(** Stripping a stripped string changes nothing. *)
Lemma strip_idempotent (s : str) : strip (strip s) = strip s.
Proof.
  unfold strip at 2 3, rstrip.
  set (u := lstrip (rev s)). set (t := lstrip (rev u)).
  assert (lstrip t = t) as Hl.
  { apply lstrip_fixed. intros c r Ht. by apply (lstrip_head (rev u) c r). }
  unfold strip, rstrip.
  assert (lstrip (rev t) = rev t) as Hr.
  { apply lstrip_fixed. intros c r Ht.
    destruct (lstrip_suffix (rev u)) as [sp Hsp]. fold t in Hsp.
    apply (f_equal (@rev char)) in Hsp.
    rewrite rev_involutive, rev_app_distr, Ht in Hsp.
    by apply (lstrip_head (rev s) c (r ++ rev sp)). }
  by rewrite Hr, rev_involutive.
Qed.

Section PipelineExtras2.

Context {sample : Type}.
Variable cfg : config.

Implicit Types (w : world sample) (es : list (event sample)) (e : event sample).

(** X21. Every line of the transcript log is a formatted, non-empty text
    that has no white space left at either end: stripping it again changes
    nothing. *)
Theorem logged_text_is_trimmed es :
  Forall (fun line => exists now text,
            line = format_line now text /\ text <> [] /\ strip text = text)
    (transcript_text (ui (run cfg es initial_world).1)).
Proof.
  destruct (run_lines_ok cfg es es initial_world) as [_ Ht].
  { done. }
  { split; constructor. }
  eapply Forall_impl; [exact Ht|].
  intros line (raw & now & _ & Hne & ->).
  exists now, (strip raw). split; [done|]. split; [done|apply strip_idempotent].
Qed.



(** X23. What the transcription service returns or raises has no bearing
    on the batching: with every transcription made to raise, a schedule
    transcribes the same windows and leaves the same samples waiting. *)
Theorem batching_ignores_transcription_outcomes (e0 : str) es w :
  windows (run cfg (map (fail_whisper e0) es) w).2 = windows (run cfg es w).2
  /\ audio_chunk (run cfg (map (fail_whisper e0) es) w).1 = audio_chunk (run cfg es w).1
  /\ audio_q (run cfg (map (fail_whisper e0) es) w).1 = audio_q (run cfg es w).1.
Proof.
  assert (forall e w1 w2,
            audio_chunk w1 = audio_chunk w2 -> audio_q w1 = audio_q w2 ->
            windows (step cfg (fail_whisper e0 e) w1).2 = windows (step cfg e w2).2
            /\ audio_chunk (step cfg (fail_whisper e0 e) w1).1 = audio_chunk (step cfg e w2).1
            /\ audio_q (step cfg (fail_whisper e0 e) w1).1 = audio_q (step cfg e w2).1) as Hstep.
  { intros e w1 w2 Hc Hq.
    destruct e as [indata|whisper now|inp| |c now| | ]; cbn [fail_whisper].
    - cbn [step fst snd audio_callback audio_chunk audio_q]. by rewrite Hq.
    - cbn [step]. unfold worker_step. rewrite Hc, Hq.
      destruct (len (audio_chunk w2) <? window_size cfg);
        [destruct (audio_q w2) eqn:E|]; cbn [fst snd]; rewrite ?E; done.
    - destruct (tick_effects cfg (ScribeRerun inp) w1 eq_refl) as (c1 & n1 & ->).
      destruct (tick_effects cfg (ScribeRerun inp) w2 eq_refl) as (c2 & n2 & ->).
      rewrite !summary_check_windows. cbn [step]. rewrite !scribe_rerun_world. cbv zeta.
      split; [done|]. by destruct (save_clicked inp).
    - done.
    - destruct (tick_effects cfg (CliIteration c now) w1 eq_refl) as (c1 & n1 & ->).
      destruct (tick_effects cfg (CliIteration c now) w2 eq_refl) as (c2 & n2 & ->).
      rewrite !summary_check_windows. cbn [step]. rewrite !cli_iteration_world. done.
    - done.
    - cbn [step fst snd]. unfold cli_finally, save_data. cbn [ui set_ui transcript_text].
      by destruct (transcript_text (ui w1)), (transcript_text (ui w2)). }
  assert (forall es w1 w2,
            audio_chunk w1 = audio_chunk w2 -> audio_q w1 = audio_q w2 ->
            windows (run cfg (map (fail_whisper e0) es) w1).2 = windows (run cfg es w2).2
            /\ audio_chunk (run cfg (map (fail_whisper e0) es) w1).1 = audio_chunk (run cfg es w2).1
            /\ audio_q (run cfg (map (fail_whisper e0) es) w1).1 = audio_q (run cfg es w2).1) as Hrun.
  { clear es w. intros es. induction es as [|e es IH]; intros w1 w2 Hc Hq; [done|].
    cbn [map]. rewrite !run_cons_fst, !run_cons_snd, !windows_app.
    destruct (Hstep e w1 w2 Hc Hq) as (Hw & Hc1 & Hq1).
    destruct (IH _ _ Hc1 Hq1) as (IHw & IHc & IHq).
    by rewrite Hw, IHw. }
  by apply Hrun.
Qed.

End PipelineExtras2.

Section PipelineExtras3.

Context {sample : Type}.
Variable cfg : config.

Implicit Types (w : world sample) (es : list (event sample)) (e : event sample).



End PipelineExtras3.

Lemma not_blank_spec (b : str) : not_blank b = negb (forallb is_space b).
Proof.
  unfold not_blank. destruct (forallb is_space b) eqn:E.
  - apply strip_nil in E. by rewrite E.
  - destruct (strip b) eqn:Es; [|done]. apply strip_nil in Es. congruence.
Qed.

Lemma forallb_is_space_join (l : list str) :
  forallb is_space (join (lit " ") l) = forallb (forallb is_space) l.
Proof.
  induction l as [|x l IH]; [done|].
  destruct l as [|y l].
  - simpl. by rewrite andb_true_r.
  - change (join (lit " ") (x :: y :: l)) with (x ++ lit " " ++ join (lit " ") (y :: l)).
    rewrite !forallb_app, IH. done.
Qed.

Lemma stripped_all_space (x : str) :
  strip x = x -> forallb is_space x = match x with [] => true | _ :: _ => false end.
Proof.
  intros Hx. destruct x as [|c x]; [done|].
  destruct (forallb is_space (c :: x)) eqn:E; [|done].
  apply strip_nil in E. congruence.
Qed.

Lemma not_blank_join (chunk : list str) :
  Forall (fun x => strip x = x) chunk ->
  not_blank (join (lit " ") chunk) = has_text chunk.
Proof.
  intros H. rewrite not_blank_spec, forallb_is_space_join. unfold has_text.
  induction H as [|x l Hx _ IH]; [done|].
  cbn [forallb existsb]. rewrite negb_andb, IH, (stripped_all_space x Hx).
  by destruct x.
Qed.

Lemma filter_map_ext_in {A B : Type} (f : A -> B) (p : B -> bool) (q : A -> bool)
    (l : list A) :
  (forall a, In a l -> p (f a) = q a) ->
  List.filter p (map f l) = map f (List.filter q l).
Proof.
  induction l as [|a l IH]; intros H; [done|].
  cbn [map List.filter]. rewrite (H a (or_introl eq_refl)), IH.
  - by destruct (q a).
  - intros b Hb. apply H. by right.
Qed.

(** X25. The batch tool skips a chunk exactly when all its cleaned lines
    are empty: the text blocks it submits are the space-joined chunks that
    hold some text, in order. *)
Theorem tester_skips_exactly_empty_chunks (interval : Z) (lines : list str)
    (chunks : list (Z * list str)) :
  tester_chunks interval (tester_clean_lines lines) = Some chunks ->
  tester_text_blocks interval lines =
    Some (map (fun c => join (lit " ") c.2)
            (List.filter (fun c => has_text c.2) chunks)).
Proof.
  intros Hc. unfold tester_text_blocks. rewrite Hc. f_equal.
  apply filter_map_ext_in. intros [i chunk] Hin. cbn [snd].
  apply not_blank_join.
  unfold tester_chunks in Hc.
  destruct (range_from_zero (len (tester_clean_lines lines)) interval) as [starts|];
    [|discriminate].
  injection Hc as <-. apply in_map_iff in Hin as (j & [= <- <-] & _).
  apply Forall_forall. intros x Hx.
  unfold slice in Hx. apply subseteq_take, subseteq_drop in Hx.
  unfold tester_clean_lines in Hx.
  apply list_elem_of_In, in_map_iff in Hx as (line & <- & _).
  apply strip_idempotent.
Qed.

Lemma tester_skips_exactly_empty_chunks_witness :
  let lines := [lit "**[09:15:42]** "; lit "no timestamp here";
                lit "**[09:15:49]**   "; lit "**[09:15:56]** hello"] in
  tester_text_blocks 2 lines = Some [lit "hello"].
Proof.
  intros lines.
  exact (tester_skips_exactly_empty_chunks 2 lines
           [(0, [[]; []]); (2, [lit "hello"])] eq_refl).
Defined.
